(** * objconv: containers and disassembler tables

  A shallow embedding of the container classes of [containers.h]
  ([CMemoryBuffer], [CArrayBuf], [CSList]), of the helpers of
  [maindef.h] and of the record types, comparison operators and tracer
  of [disasm.h], together with the properties the specification states
  about them and further properties of the code.

  Machine integers are integers of [Z] with their wrap-around written
  out; a dynamic array is the list of its records; the error reporter
  [err] is the list of the error numbers submitted. *)

From Stdlib Require Import ZArith Lia Bool List Sorting.Sorted Ascii.
From stdpp Require Import base list sorting strings.

Local Open Scope Z_scope.

(* ================================================================== *)
(** * Part I: the program *)
(* ================================================================== *)

(** ** Fixed-width integers *)

Module MachineInt.

(** Conversion to [uint32_t]: reduction modulo [2^32]. *)
Definition to_uint32 (z : Z) : Z := z mod 4294967296.

(** Conversion to [int32_t] (two's complement). *)
Definition to_int32 (z : Z) : Z := (z + 2147483648) mod 4294967296 - 2147483648.

(** Conversion to [uint8_t]. *)
Definition to_uint8 (z : Z) : Z := z mod 256.

Definition is_uint32 (z : Z) : Prop := 0 <= z < 4294967296.
Definition is_int32 (z : Z) : Prop := -2147483648 <= z < 2147483648.

(** A counted [for] loop: [for (i = lo; i < lo + count; i++) s = body(i, s)]. *)
Fixpoint for_loop {S : Type} (lo : Z) (count : nat) (body : Z -> S -> S) (s : S) : S :=
  match count with
  | O => s
  | S k => for_loop (lo + 1) k body (body lo s)
  end.

End MachineInt.

Import MachineInt.

(** ** Record types of disasm.h and their sort keys *)

(** Lexicographic order on pairs [(section, offset)], the order the
  specification names as the sort key of the three record stores. *)
Definition lex_lt (a b : Z * Z) : Prop :=
fst a < fst b \/ (fst a = fst b /\ snd a < snd b).

(** [struct SARelocation]. *)
Module SARelocation.
Record t := {
  Section : Z;          (* int32_t:  section of relocation source *)
  Offset : Z;           (* uint32_t: offset of relocation source into section *)
  Type_ : Z;            (* uint32_t: relocation type *)
  Size : Z;             (* uint32_t: 1, 2, 4, 6 or 8 *)
  Addend : Z;           (* int32_t *)
  TargetOldIndex : Z;   (* uint32_t *)
  RefOldIndex : Z       (* uint32_t *)
}.
(** [int operator < (const SARelocation & y) const]. *)
Definition lt (x y : t) : bool :=
  (Section x <? Section y) || ((Section x =? Section y) && (Offset x <? Offset y)).
Definition key (x : t) : Z * Z := (Section x, Offset x).
End SARelocation.

(** [struct SFunctionRecord]. *)
Module SFunctionRecord.
Record t := {
  Section : Z;          (* int32_t:  section containing function *)
  Start : Z;            (* uint32_t: offset of function start *)
  End_ : Z;             (* uint32_t: offset of function end *)
  Scope : Z;            (* uint32_t *)
  OldSymbolIndex : Z    (* uint32_t *)
}.
(** [int operator < (const SFunctionRecord & y) const]. *)
Definition lt (x y : t) : bool :=
  (Section x <? Section y) || ((Section x =? Section y) && (Start x <? Start y)).
Definition key (x : t) : Z * Z := (Section x, Start x).
End SFunctionRecord.

(** [struct SASymbol]. *)
Module SASymbol.
Record t := {
  Section : Z;          (* int32_t:  section number *)
  Offset : Z;           (* uint32_t: offset into section *)
  Size : Z;             (* uint32_t *)
  Type_ : Z;            (* uint32_t *)
  Name : Z;             (* uint32_t: index into SymbolNameBuffer, 0 = no name yet *)
  DLLName : Z;          (* uint32_t *)
  Scope : Z;            (* uint32_t *)
  OldIndex : Z          (* uint32_t: index in original symbol table *)
}.
(** [void Reset()]: [memset(this, 0, sizeof( *this))]. *)
Definition Reset : t := Build_t 0 0 0 0 0 0 0 0.
(** [int operator < (const SASymbol & y) const]. *)
Definition lt (x y : t) : bool :=
  (Section x <? Section y) || ((Section x =? Section y) && (Offset x <? Offset y)).
Definition key (x : t) : Z * Z := (Section x, Offset x).
End SASymbol.

(** ** The register tracer, [struct SATracer] *)

Module SATracer.

Record t := {
  Regist : list Z;      (* uint8_t  Regist[16] *)
  Value : list Z        (* uint32_t Value[16]  *)
}.

(** The object has its sixteen slots. *)
Definition wf (tr : t) : Prop :=
  length (Regist tr) = 16%nat /\ length (Value tr) = 16%nat.

(** Byte [k] of a little-endian 64-bit store of [v]. *)
Definition byte_of (v : Z) (k : nat) : Z := to_uint8 (Z.shiftr v (8 * Z.of_nat k)).

(** [*(uint64_t* )(p + off) = v] on an array of bytes. *)
Definition store_uint64 (off : nat) (v : Z) (bytes : list Z) : list Z :=
  foldr (fun k acc => <[(off + k)%nat := byte_of v k]> acc) bytes (seq 0 8).

(** [void Reset()]: two 64-bit stores of zero over [Regist]; [Value] is
    not written. *)
Definition Reset (tr : t) : t :=
  {| Regist := store_uint64 8 0 (store_uint64 0 0 (Regist tr));
     Value := Value tr |}.

(** What a slot tells. *)
Inductive SlotInfo :=
| Unknown
| Known (kind : Z) (value : Z).

(** Modelled from the spec: the reading of a slot, which lives in
    disasm.cpp (UpdateTracer and its users). The kind in [Regist[i]]
    decides the meaning of [Value[i]] (disasm.h); kind 0, the state
    [Reset] establishes, is the spec's kind "unknown", under which the
    value has no meaning and is not looked at. *)
Definition slot_read (tr : t) (i : nat) : option SlotInfo :=
  match Regist tr !! i, Value tr !! i with
  | Some k, Some v => Some (if k =? 0 then Unknown else Known k v)
  | _, _ => None
  end.

End SATracer.

(** ** Container classes of containers.h *)

Module Containers.

(** Error numbers given to [err.submit]. *)
Definition ERR_INDEX_OUT_OF_RANGE : Z := 9003.
Definition ERR_OFFSET_OUT_OF_RANGE : Z := 2016.

(** *** [class CMemoryBuffer] *)

Record CMemoryBuffer := {
  buffer : list Z;      (* int8_t * buffer: the BufferSize allocated bytes *)
  NumEntries : Z;       (* uint32_t: number of objects pushed *)
  DataSize : Z          (* uint32_t: size of data, offset to vacant space *)
}.

Definition GetBufferSize (m : CMemoryBuffer) : Z := Z.of_nat (length (buffer m)).

(** The result of [Get<TX>(Offset)]: the errors submitted, the offset
    the object is read at, and the bytes of the object, [None] when the
    object is not wholly inside the allocated buffer. *)
Record GetResult := {
  get_errors : list Z;
  get_offset : Z;
  get_bytes : option (list Z)
}.

Definition read_bytes (bytes : list Z) (off size : Z) : option (list Z) :=
  if (0 <=? off) && (off + size <=? Z.of_nat (length bytes))
  then Some (take (Z.to_nat size) (drop (Z.to_nat off) bytes))
  else None.

(** [template <class TX> TX & Get(uint32_t Offset)], with
    [sizeofTX = sizeof(TX)]. *)
Definition Get (sizeofTX : Z) (m : CMemoryBuffer) (Offset : Z) : GetResult :=
  if Offset >=? DataSize m
  then {| get_errors := [ERR_OFFSET_OUT_OF_RANGE]; get_offset := 0;
          get_bytes := read_bytes (buffer m) 0 sizeofTX |}
  else {| get_errors := []; get_offset := Offset;
          get_bytes := read_bytes (buffer m) Offset sizeofTX |}.

Section Records.

Context {RecordType : Type}.

(** *** [class CArrayBuf<RecordType>]

    [buffer] holds the [num] records allocated by [SetNum]; it is empty
    as long as [num] is 0. *)
Definition CArrayBuf_GetNumEntries (a : list RecordType) : Z := Z.of_nat (length a).

(** [RecordType & operator[] (uint32_t i)]: the errors submitted and the
    record read, [None] when there is no record at the place read. *)
Definition CArrayBuf_index (a : list RecordType) (i : Z) : list Z * option RecordType :=
  if i >=? CArrayBuf_GetNumEntries a
  then ([ERR_INDEX_OUT_OF_RANGE], a !! 0%nat)
  else ([], a !! Z.to_nat i).

(** *** [class CSList<RecordType>]

    The list of the [NumEntries] records stored in the buffer. *)

(** [sizeof(RecordType)]. *)
Variable sizeof_RecordType : Z.
(** The record whose bytes are all zero. *)
Variable zero : RecordType.
(** [RecordType::operator <]. *)
Variable lt : RecordType -> RecordType -> bool.



(** [uint32_t GetNumEntries()]. *)
Definition GetNumEntries (l : list RecordType) : Z := Z.of_nat (length l).

(** [void SetNum(uint32_t n)]: reserve space for [n] entries, fill with
    zeroes. The size in bytes, [n * sizeof(RecordType)], is handed to
    [SetSize] and stored in [DataSize] as a [uint32_t]; [None] when it
    does not fit, the space reserved then being less than [n] records. *)
Definition SetNum (n : Z) (l : list RecordType) : option (list RecordType) :=
  if n * sizeof_RecordType <? 4294967296
  then Some (take (Z.to_nat n) l ++ replicate (Z.to_nat n - length l) zero)
  else None.

(** [RecordType & operator[] (uint32_t i)], read. *)
Definition index (l : list RecordType) (i : Z) : list Z * option RecordType :=
  if i >=? GetNumEntries l
  then ([ERR_INDEX_OUT_OF_RANGE], l !! 0%nat)
  else ([], l !! Z.to_nat i).

(** [( *this)[i] = x]: the same index check, then the store. *)
Definition store (l : list RecordType) (i : Z) (x : RecordType) : list Z * list RecordType :=
  if i >=? GetNumEntries l
  then ([ERR_INDEX_OUT_OF_RANGE], <[0%nat := x]> l)
  else ([], <[Z.to_nat i := x]> l).

(** The body of the inner loop of [Sort]: compare the records at [j] and
    [j+1] and swap them when the second is less than the first. *)
Definition Sort_step (j : Z) (l : list RecordType) : list RecordType :=
  match l !! Z.to_nat j, l !! Z.to_nat (j + 1) with
  | Some p1, Some p2 =>
      if lt p2 p1
      then <[Z.to_nat (j + 1) := p1]> (<[Z.to_nat j := p2]> l)
      else l
  | _, _ => l
  end.

(** [void Sort()]: bubble sort with [int32_t] counters [i] and [j]; the
    loops run while [i < (int32_t)NumEntries] and
    [j < (int32_t)NumEntries - i - 1]. *)
Definition Sort (l : list RecordType) : list RecordType :=
  let n := to_int32 (GetNumEntries l) in
  for_loop 0 (Z.to_nat n)
    (fun i l => for_loop 0 (Z.to_nat (to_int32 (to_int32 (n - i) - 1))) Sort_step l) l.

(** The [while] loop of [FindFirst], with [a], [b], [c] of type
    [uint32_t] and the errors submitted so far. [None]: the loop has not
    ended within [fuel] iterations, or a record was read where there is
    none. *)
Fixpoint FindFirst_loop (fuel : nat) (l : list RecordType) (x : RecordType)
    (a b : Z) (errs : list Z) : option (Z * list Z) :=
  match fuel with
  | O => None
  | S k =>
      if a <? b then
        let c := to_uint32 (a + b) / 2 in
        match index l c with
        | (e, Some r) =>
            if lt r x
            then FindFirst_loop k l x (to_uint32 (c + 1)) b (errs ++ e)
            else FindFirst_loop k l x a c (errs ++ e)
        | (_, None) => None
        end
      else Some (to_int32 a, errs)
  end.

(** [int32_t FindFirst(RecordType const & x)]: the index returned and
    the errors submitted. *)
Definition FindFirst (fuel : nat) (l : list RecordType) (x : RecordType)
    : option (Z * list Z) :=
  FindFirst_loop fuel l x 0 (GetNumEntries l) [].

(** [int32_t Exists(RecordType const & x)]: the record number of a
    record equal to [x], or -1; [i] is a [uint32_t]. *)
Definition Exists (fuel : nat) (l : list RecordType) (x : RecordType)
    : option (Z * list Z) :=
  match FindFirst fuel l x with
  | None => None
  | Some (r, e1) =>
      let i := to_uint32 r in
      if i =? GetNumEntries l then Some (-1, e1)
      else
        match index l i with
        | (e2, Some ri) => Some (if lt x ri then -1 else to_int32 i, e1 ++ e2)
        | (_, None) => None
        end
  end.

(** [memmove] of [count] records from index [src] to index [dst];
    [None] when a range leaves the buffer. *)
Definition memmove_records (dst src count : Z) (l : list RecordType)
    : option (list RecordType) :=
  if (0 <=? src) && (0 <=? dst) && (0 <=? count)
     && (src + count <=? GetNumEntries l) && (dst + count <=? GetNumEntries l)
  then Some (take (Z.to_nat dst) l
             ++ take (Z.to_nat count) (drop (Z.to_nat src) l)
             ++ drop (Z.to_nat (dst + count)) l)
  else None.

(** The tail shared by [PushSort] and [PushUnique]: make space for one
    more record, move the records from [i] on up one place, and put [x]
    at [i]. *)
Definition insert_at (i : Z) (x : RecordType) (l : list RecordType)
    : option (list Z * list RecordType) :=
  let RecordsToMove := to_int32 (to_int32 (GetNumEntries l) - i) in
  match SetNum (to_uint32 (GetNumEntries l + 1)) l with
  | Some l1 =>
      match (if RecordsToMove >? 0
             then memmove_records (i + 1) i RecordsToMove l1
             else Some l1) with
      | Some l2 => Some (store l2 (to_uint32 i) x)
      | None => None
      end
  | None => None
  end.

(** [int32_t PushSort(RecordType const & x)]: the list afterwards, the
    index returned and the errors submitted. *)
Definition PushSort (fuel : nat) (l : list RecordType) (x : RecordType)
    : option (list RecordType * Z * list Z) :=
  match FindFirst fuel l x with
  | None => None
  | Some (i, e1) =>
      match insert_at i x l with
      | Some (e3, l') => Some (l', i, e1 ++ e3)
      | None => None
      end
  end.

(** [int32_t PushUnique(RecordType const & x)]: the list afterwards, the
    index returned and the errors submitted; [None] when the call does
    not end within [fuel] steps of the search or leaves the buffer. *)
Definition PushUnique (fuel : nat) (l : list RecordType) (x : RecordType)
    : option (list RecordType * Z * list Z) :=
  match FindFirst fuel l x with
  | None => None
  | Some (i, e1) =>
      let found :=
        if i <? to_int32 (GetNumEntries l) then
          match index l (to_uint32 i) with
          | (e2, Some r) => Some (negb (lt x r), e2)
          | (_, None) => None
          end
        else Some (false, []) in
      match found with
      | None => None
      | Some (true, e2) => Some (l, i, e1 ++ e2)
      | Some (false, e2) =>
          match insert_at i x l with
          | Some (e3, l') => Some (l', i, e1 ++ e2 ++ e3)
          | None => None
          end
      end
  end.

(** [void Remove(uint32_t index)]: an index out of range is ignored;
    otherwise the records after [index] move down one place, the
    number of them counted in [uint32_t], and the number of entries is
    counted down. *)
Definition Remove (index_ : Z) (l : list RecordType) : option (list RecordType) :=
  if index_ >=? GetNumEntries l then Some l
  else
    let RecordsToMove := to_uint32 (to_uint32 (GetNumEntries l - index_) - 1) in
    match (if RecordsToMove >? 0
           then memmove_records index_ (index_ + 1) RecordsToMove l
           else Some l) with
    | Some l1 => SetNum (to_uint32 (GetNumEntries l - 1)) l1
    | None => None
    end.

End Records.

End Containers.

(** ** Lookup tables and integer helpers of maindef.h *)

Module MainDef.

(** [static inline uint32_t HighDWord (uint64_t x)]. *)
Definition HighDWord (x : Z) : Z := to_uint32 (Z.shiftr x 32).

(** [struct SIntTxt]: an integer and a text. *)
Record SIntTxt := {
  a : Z;                (* uint32_t *)
  b : string            (* const char * *)
}.

(** What [LookupText] returns: the text of a table entry, or the
    address of its static buffer [utext]. *)
Inductive TextPointer :=
| TableText (s : string)
| StaticText.

(** The digit of [%X] for a value below 16: the characters 0 to 9
    have the codes 48 to 57, the characters A to F the codes 65 to 70. *)
Definition hex_digit (d : Z) : ascii :=
  ascii_of_N (Z.to_N (if d <? 10 then 48 + d else 55 + d)).

(** The conversion [%X] of [sprintf] for an [unsigned int]: upper-case
    hexadecimal digits, as many as the value needs and at least one.
    An [unsigned int] of 32 bits has at most 8 of them. *)
Fixpoint hex_digits (count : nat) (x : Z) (acc : string) : string :=
  match count with
  | O => acc
  | S k =>
      let acc' := String (hex_digit (x mod 16)) acc in
      if x / 16 =? 0 then acc' else hex_digits k (x / 16) acc'
  end.

Definition format_X (x : Z) : string := hex_digits 8 x EmptyString.

(** [sprintf(utext, "unknown(0x%X)", x)]: the text written. *)
Definition unknown_text (x : Z) : string :=
  String.append "unknown(0x" (String.append (format_X x) ")").

(** The loop of [LookupText] over the first [n] entries of the table
    [p]: the text of the first entry whose number is [x]; [Some None]
    when there is none; [None] when the loop leaves the table. *)
Fixpoint LookupText_loop (p : list SIntTxt) (n : nat) (x : Z) {struct n}
    : option (option string) :=
  match n with
  | O => Some None
  | S k =>
      match p with
      | [] => None
      | e :: p' => if a e =? x then Some (Some (b e)) else LookupText_loop p' k x
      end
  end.

(** [char const * LookupText(SIntTxt const * p, int n, uint32_t x)],
    with the content of the static buffer [utext] before and after. *)
Definition LookupText (utext : string) (p : list SIntTxt) (n : Z) (x : Z)
    : option (TextPointer * string) :=
  match LookupText_loop p (Z.to_nat n) x with
  | None => None
  | Some (Some s) => Some (TableText s, utext)
  | Some None => Some (StaticText, unknown_text x)
  end.


(** [sizeof(utext)]. *)
Definition UTEXT_SIZE : Z := 32.

End MainDef.


(* ================================================================== *)
(** * Part I, continued: the vocabulary of the properties *)
(* ================================================================== *)

(** ** Orders given by an [operator <] *)

Section OrderVocabulary.

Context {A : Type}.
Variable lt : A -> A -> bool.

(** [operator <] is a strict weak order: irreflexive, transitive, and
    with a transitive incomparability (stated as negative transitivity). *)
Record StrictWeakOrder : Prop := {
  lt_irrefl : forall x, lt x x = false;
  lt_trans : forall x y z, lt x y = true -> lt y z = true -> lt x z = true;
  lt_negtrans : forall x y z, lt x z = true -> lt x y = true \/ lt y z = true
}.

(** [x] is not after [y]: [y < x] does not hold. *)
Definition not_after (x y : A) : Prop := lt y x = false.

(** Neither record is less than the other: the records are equal under
    the order. *)
Definition equiv (x y : A) : bool := negb (lt x y) && negb (lt y x).

(** Ascending order by [operator <]: no record is less than a record
    before it. *)
Definition ascending (l : list A) : Prop := StronglySorted not_after l.

(** The records of [l] equal to [x] under the order, in the order they
    have in [l]. A sort is stable when it keeps each of these lists. *)
Definition class_of (x : A) (l : list A) : list A := List.filter (equiv x) l.

(** No two records of the list are equal under the order. *)
Definition no_two_equal (l : list A) : Prop :=
  forall (i j : nat) ri rj,
    l !! i = Some ri -> l !! j = Some rj -> equiv ri rj = true -> i = j.

(** Each record is less than all the records after it. *)
Definition strictly_ascending (l : list A) : Prop :=
  StronglySorted (fun a b => lt a b = true) l.

(** One round of the inner loop of [Sort], as a recursion on the list:
    [n] steps that carry the record [a] over [rest]. *)
Fixpoint bubble (n : nat) (a : A) (rest : list A) : list A :=
  match n, rest with
  | S k, b :: r => if lt b a then b :: bubble k a r else a :: bubble k b r
  | _, _ => a :: rest
  end.

(** The invariant of the outer loop of [Sort]: after [i] rounds the
    list [l'] holds the records of [l], equal records in their first
    order, and its last [i] records are in their final place. *)
Definition Sort_inv (l : list A) (i : Z) (l' : list A) : Prop :=
  Permutation l' l
  /\ (forall x, class_of x l' = class_of x l)
  /\ exists front back,
       l' = front ++ back
       /\ Z.of_nat (length back) = i
       /\ ascending back
       /\ forall p s, In p front -> In s back -> lt s p = false.

(** Every record before index [a] is less than [x]. *)
Definition all_less_before (l : list A) (x : A) (a : Z) : Prop :=
  forall (k : nat) r, l !! k = Some r -> Z.of_nat k < a -> lt r x = true.

(** No record from index [b] on is less than [x]. *)
Definition none_less_from (l : list A) (x : A) (b : Z) : Prop :=
  forall (k : nat) r, l !! k = Some r -> b <= Z.of_nat k -> lt r x = false.

(** The records less than [x] come first. *)
Definition less_first (l : list A) (x : A) : Prop :=
  forall (i j : nat) ri rj,
    l !! i = Some ri -> l !! j = Some rj -> (i <= j)%nat ->
    lt rj x = true -> lt ri x = true.

End OrderVocabulary.

(** The comparison of two keys that the three [operator <] of disasm.h
    compute. *)
Definition key_lt (a b : Z * Z) : bool :=
  (fst a <? fst b) || ((fst a =? fst b) && (snd a <? snd b)).

(** An order on pairs that looks at the first component only: records
    with a key and a payload. *)
Definition tagged_lt (a b : Z * Z) : bool := fst a <? fst b.

(** ** Data of the examples *)

(** An [operator <] that is a strict partial order and not a weak one:
    2 is less than 3, and no other two numbers compare. *)
Definition two_below_three (a b : Z) : bool := (a =? 2) && (b =? 3).

(** A tracer with every register known. *)
Definition tracer_all_known : SATracer.t :=
  {| SATracer.Regist := [1; 2; 3; 4; 1; 2; 3; 4; 1; 2; 3; 4; 1; 2; 3; 255];
     SATracer.Value := [10; 11; 12; 13; 14; 15; 16; 17; 18; 19; 20; 21; 22; 23; 24; 25] |}.

(** The number [2^31] as a [nat]. It is given by its value in [Z] and
    kept opaque, so that no proof step expands it into [2^31]
    successors. *)
Lemma nat_2p31 : {n : nat | Z.of_nat n = 2147483648}.
Proof. exists (Z.to_nat 2147483648). apply Z2Nat.id. discriminate. Qed.

Definition count_2p31 : nat := proj1_sig nat_2p31.

(** A list of [2^31] records that is not in order: 1, 0, 0, ..., 0. *)
Definition unsorted_2p31 : list Z := <[0%nat := 1]> (replicate count_2p31 0).

(** A list of [2^31] records, all 0. *)
Definition zeros_2p31 : list Z := replicate count_2p31 0.

(** The number [2^30 - 1] as a [nat], opaque in the same way. *)
Lemma nat_2p30m1 : {n : nat | Z.of_nat n = 1073741823}.
Proof. exists (Z.to_nat 1073741823). apply Z2Nat.id. discriminate. Qed.

Definition count_2p30m1 : nat := proj1_sig nat_2p30m1.

(** The list of the [2^30 - 1] records 0, 1, 2, ..., in order and
    without equal records: 4 bytes short of 4 GiB of 4-byte records. *)
Definition iota_2p30m1 : list Z := Z.of_nat <$> seq 0 count_2p30m1.

(** A public symbol at an address, with an old index. *)
Definition symbol_at (section offset old : Z) : SASymbol.t :=
  {| SASymbol.Section := section; SASymbol.Offset := offset; SASymbol.Size := 0;
     SASymbol.Type_ := 0; SASymbol.Name := 0; SASymbol.DLLName := 0;
     SASymbol.Scope := 4; SASymbol.OldIndex := old |}.

(** A memory buffer of 8 allocated bytes of which 4 are data. *)
Definition buffer_of_four : Containers.CMemoryBuffer :=
  {| Containers.buffer := [17; 34; 51; 68; 0; 0; 0; 0];
     Containers.NumEntries := 1;
     Containers.DataSize := 4 |}.

(** ** Vocabulary for the further properties of the containers *)

Section MoreVocabulary.

Context {A : Type}.
Variable sizeof_RecordType : Z.
Variable zero : A.
Variable lt : A -> A -> bool.

(** Index [i] is a boundary of the search for [x]: the record before
    it, if there is one, is less than [x], and the record at it, if
    there is one, is not. *)
Definition boundary_at (l : list A) (x : A) (i : Z) : Prop :=
  (0 < i -> exists r, l !! Z.to_nat (i - 1) = Some r /\ lt r x = true)
  /\ (i < Containers.GetNumEntries l ->
      exists r, l !! Z.to_nat i = Some r /\ lt r x = false).

(** Some record of the list is equal to [x] under the order. *)
Definition holds_equal (l : list A) (x : A) : Prop :=
  exists r, In r l /\ equiv lt r x = true.

(** [PushSort(x)] for each [x] of [xs] in turn: the list afterwards
    and the errors submitted by all the calls. *)
Fixpoint PushSort_all (fuel : nat) (xs : list A) (l : list A) : option (list A * list Z) :=
  match xs with
  | [] => Some (l, [])
  | x :: xs' =>
      match Containers.PushSort sizeof_RecordType zero lt fuel l x with
      | Some (l', _, e) =>
          match PushSort_all fuel xs' l' with
          | Some (l'', e') => Some (l'', e ++ e')
          | None => None
          end
      | None => None
      end
  end.

(** [PushUnique(x)] for each [x] of [xs] in turn. *)
Fixpoint PushUnique_all (fuel : nat) (xs : list A) (l : list A) : option (list A) :=
  match xs with
  | [] => Some l
  | x :: xs' =>
      match Containers.PushUnique sizeof_RecordType zero lt fuel l x with
      | Some (l', _, _) => PushUnique_all fuel xs' l'
      | None => None
      end
  end.

End MoreVocabulary.

(** The keys of a list are in lexicographic order, equal keys allowed. *)
Definition keys_ascending (keys : list (Z * Z)) : Prop :=
  forall (i j : nat) ki kj,
    (i < j)%nat -> keys !! i = Some ki -> keys !! j = Some kj ->
    fst ki < fst kj \/ (fst ki = fst kj /\ snd ki <= snd kj).

(** The value of a hexadecimal digit, by the code of the character. *)
Definition hex_digit_value (c : ascii) : option Z :=
  let n := Z.of_N (N_of_ascii c) in
  if (48 <=? n) && (n <=? 57) then Some (n - 48)
  else if (65 <=? n) && (n <=? 70) then Some (n - 55)
  else None.

(** The number a string of hexadecimal digits denotes, read after the
    digits that gave [v]. *)
Fixpoint hex_value (v : Z) (s : string) : option Z :=
  match s with
  | EmptyString => Some v
  | String c s' =>
      match hex_digit_value c with
      | Some d => hex_value (v * 16 + d) s'
      | None => None
      end
  end.
(* ================================================================== *)
(** * Part II: properties *)
(* ================================================================== *)

(** ** Fixed-width integers *)

Lemma to_int32_small z : -2147483648 <= z < 2147483648 -> to_int32 z = z.
Proof. intros H. unfold to_int32. rewrite Z.mod_small; lia. Qed.

Lemma to_uint32_small z : 0 <= z < 4294967296 -> to_uint32 z = z.
Proof. intros H. unfold to_uint32. now rewrite Z.mod_small. Qed.

Lemma for_loop_S {S : Type} lo n (body : Z -> S -> S) s :
  for_loop lo (Datatypes.S n) body s = for_loop (lo + 1) n body (body lo s).
Proof. reflexivity. Qed.

(** A loop invariant rule for counted loops. *)
Lemma for_loop_ind {S : Type} (P : Z -> S -> Prop) (body : Z -> S -> S) :
  forall n lo s,
    P lo s ->
    (forall i t, lo <= i < lo + Z.of_nat n -> P i t -> P (i + 1) (body i t)) ->
    P (lo + Z.of_nat n) (for_loop lo n body s).
Proof.
  induction n as [|n IH]; intros lo s H0 Hstep.
  - simpl. now replace (lo + Z.of_nat 0) with lo by lia.
  - rewrite for_loop_S.
    replace (lo + Z.of_nat (Datatypes.S n)) with ((lo + 1) + Z.of_nat n) by lia.
    apply IH.
    + apply Hstep; [lia | assumption].
    + intros i t Hi. apply Hstep. lia.
Qed.

(** A property that every step keeps holds after the loop. *)
Lemma for_loop_preserves {S : Type} (P : S -> Prop) (body : Z -> S -> S) :
  (forall i s, P s -> P (body i s)) ->
  forall n lo s, P s -> P (for_loop lo n body s).
Proof.
  intros Hbody. induction n as [|n IH]; intros lo s Hs; [exact Hs|].
  rewrite for_loop_S. apply IH. now apply Hbody.
Qed.

(** ** Sort keys of the record stores *)

Lemma key_lt_lex a b : key_lt a b = true <-> lex_lt a b.
Proof.
  unfold key_lt, lex_lt.
  rewrite orb_true_iff, andb_true_iff, Z.ltb_lt, Z.eqb_eq, Z.ltb_lt. tauto.
Qed.

(** C4. The three [operator <] are exactly the lexicographic order on
    the key the specification names: (Section, Offset) for symbols and
    relocations, (Section, Start) for function records. Each comparison
    is a function of the two keys alone, so no field outside the key
    influences it. *)
Theorem operator_lt_is_lexicographic_on_key :
  (forall a b : SASymbol.t,
      SASymbol.lt a b = key_lt (SASymbol.key a) (SASymbol.key b)
      /\ (SASymbol.lt a b = true
          <-> lex_lt (SASymbol.Section a, SASymbol.Offset a)
                     (SASymbol.Section b, SASymbol.Offset b)))
  /\ (forall a b : SARelocation.t,
      SARelocation.lt a b = key_lt (SARelocation.key a) (SARelocation.key b)
      /\ (SARelocation.lt a b = true
          <-> lex_lt (SARelocation.Section a, SARelocation.Offset a)
                     (SARelocation.Section b, SARelocation.Offset b)))
  /\ (forall a b : SFunctionRecord.t,
      SFunctionRecord.lt a b = key_lt (SFunctionRecord.key a) (SFunctionRecord.key b)
      /\ (SFunctionRecord.lt a b = true
          <-> lex_lt (SFunctionRecord.Section a, SFunctionRecord.Start a)
                     (SFunctionRecord.Section b, SFunctionRecord.Start b))).
Proof.
  repeat split; try reflexivity; intros H.
  all: first [ now apply (key_lt_lex (_, _) (_, _)) in H
             | now apply (key_lt_lex (_, _) (_, _)) ].
Qed.

(** Equal keys give equal comparisons, whatever the other fields hold. *)
Corollary SASymbol_lt_key_only (a a' b b' : SASymbol.t) :
  SASymbol.key a = SASymbol.key a' -> SASymbol.key b = SASymbol.key b' ->
  SASymbol.lt a b = SASymbol.lt a' b'.
Proof.
  intros Ha Hb.
  change (key_lt (SASymbol.key a) (SASymbol.key b)
          = key_lt (SASymbol.key a') (SASymbol.key b')).
  now rewrite Ha, Hb.
Qed.

(** ** The register tracer *)

Lemma Reset_Regist (tr : SATracer.t) :
  length (SATracer.Regist tr) = 16%nat ->
  SATracer.Regist (SATracer.Reset tr) = replicate 16 0.
Proof.
  destruct tr as [R V]; simpl. intros H.
  do 17 (destruct R as [|? R]; try discriminate H).
  reflexivity.
Qed.

(** [Reset] leaves the [Value] array as it was. *)
Lemma Reset_Value (tr : SATracer.t) :
  SATracer.Value (SATracer.Reset tr) = SATracer.Value tr.
Proof. reflexivity. Qed.

Lemma Reset_slot_unknown (tr : SATracer.t) (i : nat) :
  SATracer.wf tr -> (i < 16)%nat ->
  SATracer.slot_read (SATracer.Reset tr) i = Some SATracer.Unknown.
Proof.
  intros [HR HV] Hi. unfold SATracer.slot_read.
  rewrite (Reset_Regist tr HR), Reset_Value.
  rewrite lookup_replicate_2 by exact Hi.
  destruct (lookup_lt_is_Some_2 (SATracer.Value tr) i) as [v Hv]; [lia|].
  now rewrite Hv.
Qed.

(** C5. After [SATracer::Reset] each of the 16 slots reads as unknown,
    its kind in [Regist] being 0, whatever the tracer held before: the
    reading of a slot after the reset is the same for any two earlier
    tracer states, so nothing known before the label reaches a later
    query. *)
Theorem Reset_every_slot_reads_unknown (tr : SATracer.t) (i : nat) :
  SATracer.wf tr -> (i < 16)%nat ->
  SATracer.slot_read (SATracer.Reset tr) i = Some SATracer.Unknown
  /\ SATracer.Regist (SATracer.Reset tr) !! i = Some 0
  /\ forall tr' : SATracer.t, SATracer.wf tr' ->
       SATracer.slot_read (SATracer.Reset tr') i
       = SATracer.slot_read (SATracer.Reset tr) i.
Proof.
  intros Hwf Hi. split; [|split].
  - now apply Reset_slot_unknown.
  - rewrite (Reset_Regist tr (proj1 Hwf)). now apply lookup_replicate_2.
  - intros tr' Hwf'. now rewrite !Reset_slot_unknown.
Qed.

Lemma Reset_every_slot_reads_unknown_witness :
  SATracer.slot_read tracer_all_known 15 = Some (SATracer.Known 255 25)
  /\ SATracer.slot_read (SATracer.Reset tracer_all_known) 15 = Some SATracer.Unknown.
Proof.
  split; [reflexivity|].
  exact (proj1 (Reset_every_slot_reads_unknown tracer_all_known 15
                  (conj eq_refl eq_refl) (le_n 16))).
Defined.

(** ** Element access of the containers *)

Import Containers.

Section ElementAccess.

Context {A : Type}.

Lemma index_in_range (l : list A) (c : Z) :
  0 <= c < GetNumEntries l ->
  exists r, index l c = ([], Some r) /\ l !! Z.to_nat c = Some r.
Proof.
  unfold index, GetNumEntries. intros Hc.
  destruct (Z.geb_spec c (Z.of_nat (length l))) as [?|_]; [lia|].
  destruct (lookup_lt_is_Some_2 l (Z.to_nat c)) as [r Hr]; [lia|].
  exists r. now rewrite Hr.
Qed.

Lemma index_out_of_range (l : list A) (c : Z) :
  l <> [] -> GetNumEntries l <= c ->
  exists r, index l c = ([ERR_INDEX_OUT_OF_RANGE], Some r) /\ l !! 0%nat = Some r.
Proof.
  unfold index, GetNumEntries. intros Hne Hc.
  destruct (Z.geb_spec c (Z.of_nat (length l))) as [_|?]; [|lia].
  destruct l as [|r l]; [contradiction|]. now exists r.
Qed.

Lemma Get_offset_checked (sizeofTX : Z) (m : CMemoryBuffer) (Offset : Z) :
  get_errors (Get sizeofTX m Offset)
  = (if Offset <? DataSize m then [] else [ERR_OFFSET_OUT_OF_RANGE])
  /\ get_offset (Get sizeofTX m Offset) = (if Offset <? DataSize m then Offset else 0)
  /\ get_bytes (Get sizeofTX m Offset)
     = read_bytes (buffer m) (get_offset (Get sizeofTX m Offset)) sizeofTX.
Proof.
  unfold Get.
  destruct (Z.geb_spec Offset (DataSize m)), (Z.ltb_spec Offset (DataSize m));
    try lia; repeat split.
Qed.

End ElementAccess.

(** C10, with what [Get] does not check left out. For a list with at
    least one entry, [CSList::operator[]] and [CArrayBuf::operator[]]
    return the record at index [i] when [i < NumEntries] and otherwise
    submit the index-out-of-range error and return the record at index
    0, so the record read is always a stored one. [CMemoryBuffer::Get]
    submits its error and takes offset 0 when the offset is at or past
    [DataSize]; the offset it reads at is then inside the stored data
    whenever there are data. *)
Theorem element_access_checked {A : Type} (l a : list A) (m : CMemoryBuffer)
    (sizeofTX i Offset : Z) :
  l <> [] -> a <> [] -> 0 <= i -> 0 <= Offset ->
  (exists r,
      index l i = (if i <? GetNumEntries l then [] else [ERR_INDEX_OUT_OF_RANGE], Some r)
      /\ l !! (if i <? GetNumEntries l then Z.to_nat i else 0%nat) = Some r)
  /\ (exists r,
      CArrayBuf_index a i
      = (if i <? CArrayBuf_GetNumEntries a then [] else [ERR_INDEX_OUT_OF_RANGE], Some r)
      /\ a !! (if i <? CArrayBuf_GetNumEntries a then Z.to_nat i else 0%nat) = Some r)
  /\ get_errors (Get sizeofTX m Offset)
     = (if Offset <? DataSize m then [] else [ERR_OFFSET_OUT_OF_RANGE])
  /\ get_offset (Get sizeofTX m Offset) = (if Offset <? DataSize m then Offset else 0)
  /\ (0 < DataSize m -> 0 <= get_offset (Get sizeofTX m Offset) < DataSize m).
Proof.
  intros Hl Ha Hi Ho.
  assert (Hidx : forall l0 : list A, l0 <> [] ->
    exists r,
      index l0 i = (if i <? GetNumEntries l0 then [] else [ERR_INDEX_OUT_OF_RANGE], Some r)
      /\ l0 !! (if i <? GetNumEntries l0 then Z.to_nat i else 0%nat) = Some r).
  { intros l0 Hne. destruct (Z.ltb_spec i (GetNumEntries l0)) as [Hlt|Hge].
    - apply index_in_range. lia.
    - now apply index_out_of_range. }
  split; [now apply Hidx|]. split; [exact (Hidx a Ha)|].
  destruct (Get_offset_checked sizeofTX m Offset) as (He & Hoff & _).
  split; [exact He|]. split; [exact Hoff|].
  intros Hdata. rewrite Hoff. destruct (Z.ltb_spec Offset (DataSize m)); lia.
Qed.

Lemma element_access_checked_witness :
  (exists r, index [10; 20; 30] 7 = ([ERR_INDEX_OUT_OF_RANGE], Some r)
             /\ [10; 20; 30] !! 0%nat = Some r)
  /\ (exists r, CArrayBuf_index [1; 2] 7 = ([ERR_INDEX_OUT_OF_RANGE], Some r)
                /\ [1; 2] !! 0%nat = Some r)
  /\ get_errors (Get 4 buffer_of_four 9) = [ERR_OFFSET_OUT_OF_RANGE]
  /\ get_offset (Get 4 buffer_of_four 9) = 0
  /\ (0 < DataSize buffer_of_four -> 0 <= get_offset (Get 4 buffer_of_four 9) < 4).
Proof.
  exact (element_access_checked [10; 20; 30] [1; 2] buffer_of_four 4 7 9
           ltac:(discriminate) ltac:(discriminate) ltac:(lia) ltac:(lia)).
Defined.

(** C10 as stated fails for [Get]: only the offset is checked, not the
    size of the object. Reading a 4-byte object at offset 2 of 4 bytes
    of data submits no error and takes two bytes from behind the data;
    in an empty buffer even the substituted offset 0 is outside. *)
Lemma Get_reads_past_DataSize_counterexample :
  get_errors (Get 4 buffer_of_four 2) = []
  /\ get_offset (Get 4 buffer_of_four 2) = 2
  /\ DataSize buffer_of_four < get_offset (Get 4 buffer_of_four 2) + 4
  /\ get_bytes (Get 4 buffer_of_four 2) = Some [51; 68; 0; 0]
  /\ Get 1 {| buffer := []; NumEntries := 0; DataSize := 0 |} 0
     = {| get_errors := [ERR_OFFSET_OUT_OF_RANGE]; get_offset := 0; get_bytes := None |}.
Proof. repeat split. Qed.

(** ** Strict weak orders and the bubble sort of [CSList::Sort] *)

Import Containers.

(** Sortedness, by indices. *)
Lemma StronglySorted_lookup {A : Type} (R : A -> A -> Prop) (l : list A) :
  StronglySorted R l
  <-> forall (i j : nat) a b, (i < j)%nat -> l !! i = Some a -> l !! j = Some b -> R a b.
Proof.
  split.
  - induction 1 as [|x l Hs IH Hall]; intros i j a b Hij Hi Hj; [discriminate|].
    destruct j as [|j]; [lia|]. simpl in Hj. destruct i as [|i]; simpl in Hi.
    + injection Hi as <-. rewrite List.Forall_forall in Hall.
      apply Hall. apply list_elem_of_In. eapply list_elem_of_lookup_2. exact Hj.
    + apply (IH i j a b); [lia|assumption..].
  - induction l as [|x l IH]; intros H; constructor.
    + apply IH. intros i j a b Hij Hi Hj. apply (H (S i) (S j) a b); [lia|assumption..].
    + apply List.Forall_forall. intros b Hb.
      apply list_elem_of_In, list_elem_of_lookup in Hb. destruct Hb as [j Hj].
      apply (H 0%nat (S j) x b); [lia|reflexivity|exact Hj].
Qed.

Section SortProofs.

Context {A : Type}.
Variable lt : A -> A -> bool.
Hypothesis SWO : StrictWeakOrder lt.

Lemma lt_asym x y : lt x y = true -> lt y x = false.
Proof.
  intros H. destruct (lt y x) eqn:E; [|reflexivity].
  pose proof (lt_trans lt SWO _ _ _ H E) as C. now rewrite (lt_irrefl lt SWO) in C.
Qed.

Lemma not_after_trans x y z : not_after lt x y -> not_after lt y z -> not_after lt x z.
Proof.
  unfold not_after. intros H1 H2.
  destruct (lt z x) eqn:E; [|reflexivity].
  destruct (lt_negtrans lt SWO z y x E) as [C|C]; congruence.
Qed.

Lemma lt_not_after_trans x y z : lt x y = true -> not_after lt y z -> lt x z = true.
Proof.
  unfold not_after. intros H1 H2.
  destruct (lt_negtrans lt SWO x z y H1) as [C|C]; congruence.
Qed.

Lemma not_after_lt_trans x y z : not_after lt x y -> lt y z = true -> lt x z = true.
Proof.
  unfold not_after. intros H1 H2.
  destruct (lt_negtrans lt SWO y x z H2) as [C|C]; congruence.
Qed.

Lemma equiv_not_both x a b :
  lt b a = true -> equiv lt x a = true -> equiv lt x b = true -> False.
Proof.
  unfold equiv. rewrite !andb_true_iff, !negb_true_iff.
  intros H [Ha1 Ha2] [Hb1 Hb2].
  destruct (lt_negtrans lt SWO b x a H) as [C|C]; congruence.
Qed.

Lemma Sort_step_app (pre : list A) a b suf :
  Sort_step lt (Z.of_nat (length pre)) (pre ++ a :: b :: suf)
  = pre ++ (if lt b a then b :: a :: suf else a :: b :: suf).
Proof.
  unfold Sort_step.
  replace (Z.to_nat (Z.of_nat (length pre) + 1)) with (S (length pre)) by lia.
  rewrite Nat2Z.id.
  rewrite (list_lookup_middle pre (b :: suf) a (length pre) eq_refl).
  replace (pre ++ a :: b :: suf) with ((pre ++ [a]) ++ b :: suf) at 1
    by now rewrite <- app_assoc.
  rewrite (list_lookup_middle (pre ++ [a]) suf b (S (length pre)))
    by (rewrite length_app; simpl; lia).
  destruct (lt b a); [|reflexivity].
  rewrite (insert_app_r_alt pre) by lia.
  rewrite Nat.sub_diag. simpl.
  rewrite (insert_app_r_alt pre) by lia.
  replace (S (length pre) - length pre)%nat with 1%nat by lia. reflexivity.
Qed.

Lemma inner_loop_bubble n : forall (pre : list A) a rest,
  (n <= length rest)%nat ->
  for_loop (Z.of_nat (length pre)) n (Sort_step lt) (pre ++ a :: rest)
  = pre ++ bubble lt n a rest.
Proof.
  induction n as [|n IH]; intros pre a rest Hn; [reflexivity|].
  destruct rest as [|b r]; [simpl in Hn; lia|].
  rewrite for_loop_S, Sort_step_app. simpl in Hn. simpl bubble.
  replace (Z.of_nat (length pre) + 1) with (Z.of_nat (length (pre ++ [a])))
    by (rewrite length_app; simpl; lia).
  destruct (lt b a).
  - replace (length (pre ++ [a])) with (length (pre ++ [b]))
      by (rewrite !length_app; reflexivity).
    replace (pre ++ b :: a :: r) with ((pre ++ [b]) ++ a :: r)
      by now rewrite <- app_assoc.
    rewrite IH by lia. now rewrite <- app_assoc.
  - replace (pre ++ a :: b :: r) with ((pre ++ [a]) ++ b :: r)
      by now rewrite <- app_assoc.
    rewrite IH by lia. now rewrite <- app_assoc.
Qed.

Lemma bubble_length n : forall a rest, length (bubble lt n a rest) = S (length rest).
Proof.
  induction n as [|n IH]; intros a [|b r]; simpl; try reflexivity.
  destruct (lt b a); simpl; now rewrite IH.
Qed.

Lemma bubble_Permutation n : forall a rest, Permutation (bubble lt n a rest) (a :: rest).
Proof.
  induction n as [|n IH]; intros a [|b r]; simpl; try reflexivity.
  destruct (lt b a).
  - rewrite IH. apply perm_swap.
  - now rewrite IH.
Qed.

Lemma bubble_class n x : forall a rest,
  class_of lt x (bubble lt n a rest) = class_of lt x (a :: rest).
Proof.
  unfold class_of.
  induction n as [|n IH]; intros a [|b r]; simpl; try reflexivity.
  destruct (lt b a) eqn:Hba; simpl.
  - rewrite IH. simpl.
    destruct (equiv lt x a) eqn:Ea, (equiv lt x b) eqn:Eb; try reflexivity.
    destruct (equiv_not_both x a b Hba Ea Eb).
  - now rewrite IH.
Qed.

(** After [n] steps the record at position [n] is a greatest one among
    the first [n + 1], and the records after it have not been touched. *)
Lemma bubble_max n : forall a rest,
  (n <= length rest)%nat ->
  exists front m,
    bubble lt n a rest = front ++ m :: drop n rest
    /\ length front = n
    /\ Permutation (front ++ [m]) (a :: take n rest)
    /\ forall y, In y (a :: take n rest) -> lt m y = false.
Proof.
  induction n as [|n IH]; intros a rest Hn.
  - exists [], a. simpl. rewrite drop_0, take_0. repeat split; try reflexivity.
    intros y [<-|[]]. apply (lt_irrefl lt SWO).
  - destruct rest as [|b r]; [simpl in Hn; lia|]. simpl in Hn. simpl.
    destruct (lt b a) eqn:Hba.
    + destruct (IH a r ltac:(lia)) as (front & m & E & Hl & Hp & Hm).
      exists (b :: front), m. rewrite E. repeat split.
      * simpl. now rewrite Hl.
      * simpl. rewrite Hp. apply perm_swap.
      * intros y [<-|[<-|Hy]].
        -- apply Hm. now left.
        -- destruct (lt m b) eqn:C; [|reflexivity].
           pose proof (lt_trans lt SWO _ _ _ C Hba) as T.
           rewrite (Hm a (or_introl eq_refl)) in T. discriminate T.
        -- apply Hm. now right.
    + destruct (IH b r ltac:(lia)) as (front & m & E & Hl & Hp & Hm).
      exists (a :: front), m. rewrite E. repeat split.
      * simpl. now rewrite Hl.
      * simpl. now rewrite Hp.
      * intros y [<-|[<-|Hy]].
        -- apply (not_after_trans a b m); [exact Hba|]. unfold not_after.
           apply Hm. now left.
        -- apply Hm. now left.
        -- apply Hm. now right.
Qed.

(** *** The outer loop *)

Lemma Sort_inv_init l : Sort_inv lt l 0 l.
Proof.
  split; [reflexivity|]. split; [reflexivity|].
  exists l, []. rewrite app_nil_r. repeat split; try constructor.
  intros p s _ [].
Qed.

Lemma Sort_round (l : list A) (i : Z) (l' : list A) :
  GetNumEntries l < 2147483648 ->
  0 <= i < GetNumEntries l ->
  Sort_inv lt l i l' ->
  Sort_inv lt l (i + 1)
    (for_loop 0
       (Z.to_nat (to_int32 (to_int32 (to_int32 (GetNumEntries l) - i) - 1)))
       (Sort_step lt) l').
Proof.
  unfold GetNumEntries. intros HN Hi (Hp & Hc & front & back & -> & Hb & Hs & Hfb).
  rewrite (to_int32_small (Z.of_nat (length l))) by lia.
  rewrite (to_int32_small (Z.of_nat (length l) - i)) by lia.
  rewrite to_int32_small by lia.
  pose proof (Permutation_length Hp) as Hlen. rewrite length_app in Hlen.
  destruct front as [|a rest]; [simpl in Hlen; lia|]. simpl in Hlen.
  replace (Z.to_nat (Z.of_nat (length l) - i - 1)) with (length rest) by lia.
  change 0 with (Z.of_nat (length (@nil A))).
  change ((a :: rest) ++ back) with ([] ++ a :: (rest ++ back)).
  rewrite inner_loop_bubble by (rewrite length_app; lia).
  destruct (bubble_max (length rest) a (rest ++ back))
    as (fr & m & E & Hl & Hperm & Hm); [rewrite length_app; lia|].
  rewrite drop_app_length in E. rewrite take_app_length in Hperm, Hm.
  simpl. split; [|split].
  - rewrite bubble_Permutation. exact Hp.
  - intros x. rewrite bubble_class. apply Hc.
  - exists fr, (m :: back). repeat split.
    + exact E.
    + simpl length. lia.
    + assert (Hin : In m (a :: rest)).
      { apply (Permutation_in m Hperm). apply in_or_app. right. now left. }
      constructor; [exact Hs|].
      apply List.Forall_forall. intros s Hs'. unfold not_after. now apply Hfb.
    + intros p s Hp' [<-|Hs'].
      * apply Hm. apply (Permutation_in p Hperm). apply in_or_app. now left.
      * apply Hfb; [|exact Hs'].
        apply (Permutation_in p Hperm). apply in_or_app. now left.
Qed.

(** C3, for the lists [Sort] can count. For every list of fewer than
    [2^31] records whose [operator <] is a strict weak order, [Sort]
    yields a permutation of the list that is in ascending order, and the
    sort is stable: the records equal to any given record under the
    order keep the order they had. *)
Theorem Sort_sorts_stably (l : list A) :
  GetNumEntries l < 2147483648 ->
  Permutation (Sort lt l) l
  /\ ascending lt (Sort lt l)
  /\ forall x, class_of lt x (Sort lt l) = class_of lt x l.
Proof.
  intros HN. unfold Sort. cbv zeta.
  assert (Hn : to_int32 (GetNumEntries l) = GetNumEntries l)
    by (apply to_int32_small; unfold GetNumEntries in *; lia).
  assert (H : Sort_inv lt l (0 + Z.of_nat (Z.to_nat (to_int32 (GetNumEntries l))))
    (for_loop 0 (Z.to_nat (to_int32 (GetNumEntries l)))
       (fun i l0 => for_loop 0
          (Z.to_nat (to_int32 (to_int32 (to_int32 (GetNumEntries l) - i) - 1)))
          (Sort_step lt) l0) l)).
  { apply for_loop_ind; [apply Sort_inv_init|].
    intros i t Hi. apply Sort_round; [exact HN|].
    rewrite Hn in Hi. unfold GetNumEntries in *. lia. }
  destruct H as (Hp & Hc & front & back & E & Hb & Hs & _).
  rewrite Hn in Hb.
  split; [exact Hp|]. split; [|exact Hc].
  pose proof (Permutation_length Hp) as Hlen.
  rewrite E in Hlen |- *. rewrite length_app in Hlen.
  unfold GetNumEntries in Hb.
  destruct front; [exact Hs|simpl in Hlen; lia].
Qed.

End SortProofs.

Lemma Zltb_StrictWeakOrder : StrictWeakOrder Z.ltb.
Proof.
  split.
  - intros x. apply Z.ltb_irrefl.
  - intros x y z. rewrite !Z.ltb_lt. lia.
  - intros x y z. rewrite !Z.ltb_lt. lia.
Qed.

Lemma tagged_lt_StrictWeakOrder : StrictWeakOrder tagged_lt.
Proof.
  unfold tagged_lt. split.
  - intros x. apply Z.ltb_irrefl.
  - intros x y z. rewrite !Z.ltb_lt. lia.
  - intros x y z. rewrite !Z.ltb_lt. lia.
Qed.

(** Four records with two keys: the sort brings the keys in order and
    keeps the payloads of each key in their first order. *)
Example Sort_tagged :
  Sort tagged_lt [(2, 10); (1, 20); (2, 30); (1, 40)]
  = [(1, 20); (1, 40); (2, 10); (2, 30)].
Proof. reflexivity. Qed.

Lemma Sort_sorts_stably_witness :
  Permutation (Sort tagged_lt [(2, 10); (1, 20); (2, 30); (1, 40)])
              [(2, 10); (1, 20); (2, 30); (1, 40)]
  /\ ascending tagged_lt (Sort tagged_lt [(2, 10); (1, 20); (2, 30); (1, 40)])
  /\ forall x, class_of tagged_lt x (Sort tagged_lt [(2, 10); (1, 20); (2, 30); (1, 40)])
               = class_of tagged_lt x [(2, 10); (1, 20); (2, 30); (1, 40)].
Proof.
  exact (Sort_sorts_stably tagged_lt tagged_lt_StrictWeakOrder
           [(2, 10); (1, 20); (2, 30); (1, 40)] eq_refl).
Defined.

(** *** Lists of [2^31] records and more *)

(** The counters of [Sort] are [int32_t]: from [2^31] records on, the
    count converted to [int32_t] is negative and no round is made. *)
Lemma Sort_noop {A : Type} (lt : A -> A -> bool) (l : list A) :
  to_int32 (GetNumEntries l) <= 0 -> Sort lt l = l.
Proof.
  intros H. unfold Sort. cbv zeta.
  replace (Z.to_nat (to_int32 (GetNumEntries l))) with 0%nat by lia.
  reflexivity.
Qed.

Lemma count_2p31_value : Z.of_nat count_2p31 = 2147483648.
Proof. exact (proj2_sig nat_2p31). Qed.

Lemma unsorted_2p31_NumEntries : GetNumEntries unsorted_2p31 = 2147483648.
Proof.
  unfold GetNumEntries, unsorted_2p31.
  rewrite length_insert, length_replicate. exact count_2p31_value.
Qed.

(** C3 as stated, for every list, fails: [Sort] leaves the list 1, 0,
    0, ... of [2^31] records as it is, out of order. With records of one
    byte the list fits a buffer, its size being below [2^32]. *)
Lemma Sort_2p31_records_counterexample :
  StrictWeakOrder Z.ltb
  /\ GetNumEntries unsorted_2p31 = 2147483648
  /\ GetNumEntries unsorted_2p31 * 1 < 4294967296
  /\ unsorted_2p31 !! 0%nat = Some 1
  /\ unsorted_2p31 !! 1%nat = Some 0
  /\ Sort Z.ltb unsorted_2p31 = unsorted_2p31
  /\ ~ ascending Z.ltb (Sort Z.ltb unsorted_2p31).
Proof.
  pose proof count_2p31_value as Hc.
  assert (H0 : unsorted_2p31 !! 0%nat = Some 1).
  { unfold unsorted_2p31. apply list_lookup_insert_eq. rewrite length_replicate. lia. }
  assert (H1 : unsorted_2p31 !! 1%nat = Some 0).
  { unfold unsorted_2p31. rewrite list_lookup_insert_ne by lia.
    apply lookup_replicate_2. lia. }
  assert (E : Sort Z.ltb unsorted_2p31 = unsorted_2p31).
  { apply Sort_noop. rewrite unsorted_2p31_NumEntries.
    change (to_int32 2147483648) with (-2147483648). lia. }
  split; [exact Zltb_StrictWeakOrder|]. split; [exact unsorted_2p31_NumEntries|].
  split; [rewrite unsorted_2p31_NumEntries; reflexivity|].
  split; [exact H0|]. split; [exact H1|]. split; [exact E|].
  rewrite E. unfold ascending. intros H.
  rewrite StronglySorted_lookup in H.
  specialize (H 0%nat 1%nat 1 0 ltac:(lia) H0 H1). discriminate H.
Qed.

(** ** The binary search of [CSList::FindFirst] *)

Section Search.

Context {A : Type}.
Variable lt : A -> A -> bool.

(** The loop on a list of at most [2^31] records: with [2^k] bounding
    the length of the interval, [k + 1] units of fuel are enough; the
    result lies in the interval, no error is submitted, and when the
    records less than [x] come first the result splits them from the
    others. *)
Lemma FindFirst_loop_spec (l : list A) (x : A) :
  GetNumEntries l <= 2147483648 ->
  forall (k fuel : nat) (a b : Z) (errs : list Z),
    (k < fuel)%nat -> 0 <= a <= b -> b <= GetNumEntries l -> b - a < 2 ^ Z.of_nat k ->
    exists r,
      FindFirst_loop lt fuel l x a b errs = Some (to_int32 r, errs)
      /\ a <= r <= b
      /\ (less_first lt l x -> all_less_before lt l x a -> none_less_from lt l x b ->
          all_less_before lt l x r /\ none_less_from lt l x r).
Proof.
  intros HN. induction k as [|k IH]; intros fuel a b errs Hk Hab Hb Hsz;
    (destruct fuel as [|fuel]; [lia|]); simpl.
  - destruct (Z.ltb_spec a b) as [?|_]; [simpl in Hsz; lia|].
    assert (a = b) as -> by lia. exists b. repeat split; try lia; tauto.
  - destruct (Z.ltb_spec a b) as [Hlt|Hge].
    2:{ assert (a = b) as -> by lia. exists b. repeat split; try lia; tauto. }
    rewrite (to_uint32_small (a + b)) by lia.
    set (c := (a + b) / 2).
    assert (Hc : a <= c < b) by (subst c; split;
      [apply Z.div_le_lower_bound | apply Z.div_lt_upper_bound]; lia).
    destruct (index_in_range l c) as (r & -> & Hr); [lia|].
    rewrite app_nil_r.
    rewrite Nat2Z.inj_succ, Z.pow_succ_r in Hsz by lia.
    destruct (lt r x) eqn:Hrx.
    + rewrite (to_uint32_small (c + 1)) by lia.
      destruct (IH fuel (c + 1) b errs) as (res & E & Hres & Hpost); try lia.
      { subst c. pose proof (Z.div_mod (a + b) 2 ltac:(lia)) as D.
        pose proof (Z.mod_pos_bound (a + b) 2 ltac:(lia)). lia. }
      exists res. split; [exact E|]. split; [lia|].
      intros Hm Hpre1 Hpre2. apply Hpost; try assumption.
      intros j rj Hj Hjc.
      apply (Hm j (Z.to_nat c) rj r Hj Hr); [lia|exact Hrx].
    + destruct (IH fuel a c errs) as (res & E & Hres & Hpost); try lia.
      { subst c. pose proof (Z.div_mod (a + b) 2 ltac:(lia)) as D.
        pose proof (Z.mod_pos_bound (a + b) 2 ltac:(lia)). lia. }
      exists res. split; [exact E|]. split; [lia|].
      intros Hm Hpre1 Hpre2. apply Hpost; try assumption.
      intros j rj Hj Hjc.
      destruct (lt rj x) eqn:Hjx; [|reflexivity].
      rewrite (Hm (Z.to_nat c) j r rj Hr Hj) in Hrx; [discriminate|lia|exact Hjx].
Qed.

(** The result does not depend on the fuel, once there is enough. *)
Lemma FindFirst_loop_fuel_mono (l : list A) (x : A) :
  forall (fuel fuel' : nat) a b errs v,
    (fuel <= fuel')%nat ->
    FindFirst_loop lt fuel l x a b errs = Some v ->
    FindFirst_loop lt fuel' l x a b errs = Some v.
Proof.
  induction fuel as [|fuel IH]; intros fuel' a b errs v Hle H; [discriminate|].
  destruct fuel' as [|fuel']; [lia|]. simpl in *.
  destruct (a <? b); [|exact H].
  destruct (index l (to_uint32 (a + b) / 2)) as [e [r|]]; [|discriminate].
  destruct (lt r x); (apply IH; [lia|exact H]).
Qed.


Lemma FindFirst_fuel_mono (l : list A) (x : A) (fuel fuel' : nat) v :
  (fuel <= fuel')%nat ->
  FindFirst lt fuel l x = Some v -> FindFirst lt fuel' l x = Some v.
Proof. unfold FindFirst. apply FindFirst_loop_fuel_mono. Qed.

(** [FindFirst] on a list of at most [2^31] records, before the
    conversion of the result to [int32_t]. *)
Lemma FindFirst_raw (l : list A) (x : A) (fuel : nat) :
  GetNumEntries l <= 2147483648 -> (33 <= fuel)%nat ->
  exists r,
    FindFirst lt fuel l x = Some (to_int32 r, [])
    /\ 0 <= r <= GetNumEntries l
    /\ (less_first lt l x ->
        forall (k : nat) rk, l !! k = Some rk -> (lt rk x = true <-> Z.of_nat k < r)).
Proof.
  intros HN Hf. unfold FindFirst.
  assert (H0 : 0 <= GetNumEntries l) by (unfold GetNumEntries; lia).
  destruct (FindFirst_loop_spec l x HN 32 fuel 0 (GetNumEntries l) [])
    as (r & E & Hr & Hpost); try lia.
  exists r. split; [exact E|]. split; [exact Hr|].
  intros Hs k rk Hk.
  destruct Hpost as [H1 H2].
  - exact Hs.
  - intros j rj _ Hj. lia.
  - intros j rj Hj Hge. apply lookup_lt_Some in Hj. unfold GetNumEntries in Hge. lia.
  - split.
    + intros Hlt. destruct (Z.lt_ge_cases (Z.of_nat k) r) as [?|Hge]; [assumption|].
      rewrite (H2 k rk Hk Hge) in Hlt. discriminate.
    + apply (H1 k rk Hk).
Qed.

Hypothesis SWO : StrictWeakOrder lt.

Lemma ascending_lookup (l : list A) (i j : nat) ri rj :
  ascending lt l -> l !! i = Some ri -> l !! j = Some rj -> (i < j)%nat ->
  lt rj ri = false.
Proof.
  intros Hs. revert i j. induction Hs as [|a l Hs IH Hall]; intros i j Hi Hj Hij.
  - discriminate.
  - destruct j as [|j]; [lia|]. simpl in Hj. destruct i as [|i]; simpl in Hi.
    + injection Hi as <-. rewrite List.Forall_forall in Hall.
      apply Hall. apply list_elem_of_In. eapply list_elem_of_lookup_2. exact Hj.
    + apply (IH i j Hi Hj). lia.
Qed.

Lemma ascending_less_first (l : list A) (x : A) : ascending lt l -> less_first lt l x.
Proof.
  intros Hs i j ri rj Hi Hj Hij Hjx.
  destruct (Nat.eq_dec i j) as [->|Hne]; [congruence|].
  apply (not_after_lt_trans lt SWO ri rj x); [|exact Hjx].
  apply (ascending_lookup l i j ri rj Hs Hi Hj). lia.
Qed.

End Search.

(** C8, for the lists [FindFirst] can index. For every list of fewer
    than [2^31] records and every record [x], [FindFirst] ends (33 units
    of fuel are enough), submits no error and returns an index [i] with
    [0 <= i <= NumEntries]; when [operator <] is a strict weak order and
    the list is in ascending order, the records less than [x] are those
    before [i], so [i] is the least index of a record not less than
    [x], and [i = NumEntries] exactly when every record is less than
    [x]. *)
Theorem FindFirst_least_not_less {A : Type} (lt : A -> A -> bool)
    (l : list A) (x : A) (fuel : nat) :
  GetNumEntries l < 2147483648 -> (33 <= fuel)%nat ->
  exists i,
    FindFirst lt fuel l x = Some (i, [])
    /\ 0 <= i <= GetNumEntries l
    /\ (StrictWeakOrder lt -> ascending lt l ->
        (forall (k : nat) rk, l !! k = Some rk -> (lt rk x = true <-> Z.of_nat k < i))
        /\ (i = GetNumEntries l <-> forall r, In r l -> lt r x = true)).
Proof.
  intros HN Hf.
  destruct (FindFirst_raw lt l x fuel) as (r & E & Hr & Hchar); [lia|exact Hf|].
  rewrite to_int32_small in E by lia.
  exists r. split; [exact E|]. split; [exact Hr|].
  intros SWO Hasc.
  specialize (Hchar (ascending_less_first lt SWO l x Hasc)).
  split; [exact Hchar|]. split.
  - intros -> a Ha. apply list_elem_of_In, list_elem_of_lookup in Ha.
    destruct Ha as [k Hk]. apply (Hchar k a Hk).
    apply lookup_lt_Some in Hk. unfold GetNumEntries. lia.
  - intros Hall.
    destruct (Z.eq_dec r (GetNumEntries l)) as [?|Hne]; [assumption|].
    destruct (lookup_lt_is_Some_2 l (Z.to_nat r)) as [a Ha];
      [unfold GetNumEntries in *; lia|].
    assert (Hlt : lt a x = true).
    { apply Hall. apply list_elem_of_In. eapply list_elem_of_lookup_2. exact Ha. }
    apply (Hchar _ _ Ha) in Hlt. lia.
Qed.

Lemma FindFirst_least_not_less_witness :
  exists i,
    FindFirst Z.ltb 33 [1; 3; 5; 7] 4 = Some (i, [])
    /\ 0 <= i <= GetNumEntries [1; 3; 5; 7]
    /\ (StrictWeakOrder Z.ltb -> ascending Z.ltb [1; 3; 5; 7] ->
        (forall (k : nat) rk, [1; 3; 5; 7] !! k = Some rk ->
           (Z.ltb rk 4 = true <-> Z.of_nat k < i))
        /\ (i = GetNumEntries [1; 3; 5; 7]
            <-> forall r, In r [1; 3; 5; 7] -> Z.ltb r 4 = true)).
Proof.
  exact (FindFirst_least_not_less Z.ltb [1; 3; 5; 7] 4 33 eq_refl (le_n 33)).
Defined.

(** The search for 4 among 1, 3, 5, 7 returns index 2. *)
Example FindFirst_4 : FindFirst Z.ltb 33 [1; 3; 5; 7] 4 = Some (2, []).
Proof. reflexivity. Qed.

Lemma zeros_2p31_NumEntries : GetNumEntries zeros_2p31 = 2147483648.
Proof.
  unfold GetNumEntries, zeros_2p31. rewrite length_replicate. exact count_2p31_value.
Qed.

(** The value of [FindFirst] for 1 in the list of [2^31] zeros. *)
Lemma FindFirst_zeros_2p31 :
  FindFirst Z.ltb 33 zeros_2p31 1 = Some (-2147483648, []).
Proof.
  pose proof count_2p31_value as Hc.
  destruct (FindFirst_raw Z.ltb zeros_2p31 1 33) as (r & E & Hr & Hchar);
    [rewrite zeros_2p31_NumEntries; lia|lia|].
  rewrite zeros_2p31_NumEntries in Hr.
  assert (Hzero : forall (k : nat) rk, zeros_2p31 !! k = Some rk -> rk = 0).
  { intros k rk Hk. apply lookup_replicate in Hk. tauto. }
  assert (Hfirst : less_first Z.ltb zeros_2p31 1).
  { intros i j ri rj Hi _ _ _. now rewrite (Hzero i ri Hi). }
  specialize (Hchar Hfirst).
  assert (r = 2147483648) as ->; [|exact E].
  destruct (Z.eq_dec r 2147483648) as [?|Hne]; [assumption|].
  assert (Hk : zeros_2p31 !! Z.to_nat r = Some 0)
    by (apply lookup_replicate_2; lia).
  pose proof (proj1 (Hchar _ _ Hk) eq_refl). lia.
Qed.

(** [two_below_three] is a strict partial order, and not a weak one. *)
Lemma two_below_three_partial_order :
  (forall a, two_below_three a a = false)
  /\ (forall a b c, two_below_three a b = true -> two_below_three b c = true ->
                   two_below_three a c = true)
  /\ ~ StrictWeakOrder two_below_three.
Proof.
  unfold two_below_three. split; [|split].
  - intros a. destruct (Z.eqb_spec a 2), (Z.eqb_spec a 3); try reflexivity. lia.
  - intros a b c H1 H2.
    apply andb_true_iff in H1. apply andb_true_iff in H2.
    destruct H1 as [_ H1], H2 as [H2 _].
    apply Z.eqb_eq in H1. apply Z.eqb_eq in H2. lia.
  - intros [_ _ H]. destruct (H 2 0 3 eq_refl) as [E|E]; discriminate E.
Qed.

(** C8 as stated fails in two ways. For every list: in the list of
    [2^31] zeros (which fits a buffer when a record is one byte) every
    record is less than 1, and [FindFirst] returns [2^31] converted to
    [int32_t], a negative number, whatever the fuel. For every
    [operator <]: under the strict partial order [two_below_three] the
    list 0, 2 is in ascending order, and the search for 3 returns 2,
    the number of entries, though the record 0 at index 0 is not less
    than 3. *)
Lemma FindFirst_2p31_records_counterexample :
  (GetNumEntries zeros_2p31 = 2147483648
   /\ GetNumEntries zeros_2p31 * 1 < 4294967296
   /\ FindFirst Z.ltb 33 zeros_2p31 1 = Some (-2147483648, [])
   /\ forall (fuel : nat) i e,
        FindFirst Z.ltb fuel zeros_2p31 1 = Some (i, e) ->
        ~ (0 <= i <= GetNumEntries zeros_2p31))
  /\ (ascending two_below_three [0; 2]
      /\ FindFirst two_below_three 33 [0; 2] 3 = Some (2, [])
      /\ GetNumEntries [0; 2] = 2
      /\ [0; 2] !! 0%nat = Some 0
      /\ two_below_three 0 3 = false).
Proof.
  split.
  - split; [exact zeros_2p31_NumEntries|].
    split; [rewrite zeros_2p31_NumEntries; reflexivity|].
    split; [exact FindFirst_zeros_2p31|].
    intros fuel i e H.
    pose proof FindFirst_zeros_2p31 as H33.
    apply (FindFirst_fuel_mono Z.ltb zeros_2p31 1 fuel (Nat.max fuel 33)) in H; [|lia].
    apply (FindFirst_fuel_mono Z.ltb zeros_2p31 1 33 (Nat.max fuel 33)) in H33; [|lia].
    rewrite H in H33. injection H33 as -> ->. lia.
  - split; [|split; [vm_compute; reflexivity|split; [reflexivity|split; reflexivity]]].
    unfold ascending. repeat constructor.
Qed.

(** ** [CSList::PushUnique] *)

Section Unique.

Context {A : Type}.
Variable sizeof_RecordType : Z.
Variable zero : A.
Variable lt : A -> A -> bool.

Lemma SetNum_one_more (l : list A) :
  (GetNumEntries l + 1) * sizeof_RecordType < 4294967296 ->
  SetNum sizeof_RecordType zero (GetNumEntries l + 1) l = Some (l ++ [zero]).
Proof.
  intros Hsize. unfold SetNum.
  destruct (Z.ltb_spec ((GetNumEntries l + 1) * sizeof_RecordType) 4294967296); [|lia].
  unfold GetNumEntries. f_equal.
  rewrite take_ge by lia.
  replace (Z.to_nat (Z.of_nat (length l) + 1) - length l)%nat with 1%nat by lia.
  reflexivity.
Qed.

Lemma insert_at_spec (l : list A) (i : Z) (x : A) :
  0 <= i <= GetNumEntries l ->
  GetNumEntries l + 1 < 4294967296 ->
  (GetNumEntries l + 1) * sizeof_RecordType < 4294967296 ->
  to_int32 (to_int32 (GetNumEntries l) - i) = GetNumEntries l - i ->
  insert_at sizeof_RecordType zero i x l
  = Some ([], take (Z.to_nat i) l ++ x :: drop (Z.to_nat i) l).
Proof.
  intros Hi HN Hsize Hmove. unfold insert_at. rewrite Hmove.
  rewrite to_uint32_small by (unfold GetNumEntries in *; lia).
  rewrite SetNum_one_more by exact Hsize. rewrite (to_uint32_small i) by lia.
  assert (Hlen : GetNumEntries (l ++ [zero]) = GetNumEntries l + 1)
    by (unfold GetNumEntries; rewrite length_app; simpl; lia).
  destruct (Z.gtb_spec (GetNumEntries l - i) 0) as [Hgt|Hle].
  - unfold memmove_records. rewrite Hlen.
    replace ((0 <=? i) && (0 <=? i + 1) && (0 <=? GetNumEntries l - i)
             && (i + (GetNumEntries l - i) <=? GetNumEntries l + 1)
             && (i + 1 + (GetNumEntries l - i) <=? GetNumEntries l + 1))
      with true by (symmetry; rewrite !andb_true_iff, !Z.leb_le; lia).
    unfold store, GetNumEntries in *.
    destruct (lookup_lt_is_Some_2 l (Z.to_nat i)) as [li Hli]; [lia|].
    rewrite take_app_le by lia.
    replace (Z.to_nat (i + 1)) with (S (Z.to_nat i)) by lia.
    rewrite (take_S_r l (Z.to_nat i) li Hli).
    rewrite drop_app_le by lia.
    rewrite take_app_length' by (rewrite length_drop; lia).
    rewrite (drop_ge (l ++ [zero])) by (rewrite length_app; simpl; lia).
    rewrite app_nil_r.
    match goal with |- context [?a >=? ?b] =>
      destruct (Z.geb_spec a b) as [Hbad|_] end.
    { rewrite !length_app, length_take, length_drop in Hbad. simpl in Hbad. lia. }
    rewrite <- (app_assoc (take (Z.to_nat i) l) [li]).
    rewrite insert_app_r_alt by (rewrite length_take; lia).
    rewrite length_take.
    replace (Z.to_nat i - Z.to_nat i `min` length l)%nat with 0%nat by lia.
    reflexivity.
  - unfold store, GetNumEntries in *.
    assert (Z.to_nat i = length l) as Ei by lia.
    destruct (Z.geb_spec i (Z.of_nat (length (l ++ [zero])))) as [Hbad|_].
    { rewrite length_app in Hbad. simpl in Hbad. lia. }
    rewrite Ei, take_ge, drop_ge by lia.
    rewrite insert_app_r_alt by lia. rewrite Nat.sub_diag. reflexivity.
Qed.

Hypothesis SWO : StrictWeakOrder lt.

Lemma equiv_refl x : equiv lt x x = true.
Proof. unfold equiv. now rewrite (lt_irrefl lt SWO). Qed.

Lemma equiv_sym x y : equiv lt x y = equiv lt y x.
Proof. unfold equiv. apply andb_comm. Qed.

Lemma equiv_trans x y z :
  equiv lt x y = true -> equiv lt y z = true -> equiv lt x z = true.
Proof.
  unfold equiv. rewrite !andb_true_iff, !negb_true_iff.
  intros [H1 H2] [H3 H4]. split.
  - apply (not_after_trans lt SWO z y x); assumption.
  - apply (not_after_trans lt SWO x y z); assumption.
Qed.

Lemma lt_not_equiv x y : lt x y = true -> equiv lt x y = false.
Proof. unfold equiv. now intros ->. Qed.

Lemma strictly_ascending_iff (l : list A) :
  strictly_ascending lt l <-> ascending lt l /\ no_two_equal lt l.
Proof.
  unfold strictly_ascending, ascending. rewrite !StronglySorted_lookup. split.
  - intros H. split.
    + intros i j a b Hij Hi Hj. apply (lt_asym lt SWO). now apply (H i j).
    + intros i j a b Hi Hj He.
      destruct (Nat.lt_total i j) as [Hij|[->|Hij]]; [|reflexivity|].
      * rewrite (lt_not_equiv a b) in He; [discriminate|]. now apply (H i j).
      * rewrite equiv_sym, (lt_not_equiv b a) in He; [discriminate|]. now apply (H j i).
  - intros [Hs Hu] i j a b Hij Hi Hj.
    destruct (lt a b) eqn:E; [reflexivity|].
    assert (i = j); [|lia].
    apply (Hu i j a b Hi Hj). unfold equiv. rewrite E.
    rewrite (Hs i j a b Hij Hi Hj). reflexivity.
Qed.

Lemma elem_of_take_lookup (l : list A) (n : nat) a :
  a ∈ take n l -> exists k, (k < n)%nat /\ l !! k = Some a.
Proof.
  intros H. apply list_elem_of_lookup in H. destruct H as [k Hk].
  apply lookup_take_Some in Hk. destruct Hk as [Hk Hlt]. now exists k.
Qed.

Lemma elem_of_drop_lookup (l : list A) (n : nat) a :
  a ∈ drop n l -> exists k, (n <= k)%nat /\ l !! k = Some a.
Proof.
  intros H. apply list_elem_of_lookup in H. destruct H as [k Hk].
  rewrite lookup_drop in Hk. exists (n + k)%nat. split; [lia|exact Hk].
Qed.

(** Putting [x] between the records less than it and the records it is
    less than keeps the list in order and free of equal records. *)
Lemma insert_keeps_order (l : list A) (x : A) (n : nat) :
  strictly_ascending lt l ->
  (forall (k : nat) rk, l !! k = Some rk -> (k < n)%nat -> lt rk x = true) ->
  (forall (k : nat) rk, l !! k = Some rk -> (n <= k)%nat -> lt x rk = true) ->
  strictly_ascending lt (take n l ++ x :: drop n l).
Proof.
  intros Hs Hlo Hhi. unfold strictly_ascending in *.
  rewrite <- (take_drop n l) in Hs. apply StronglySorted_app in Hs.
  destruct Hs as (Hcross & Hs1 & Hs2).
  apply StronglySorted_app_2; [|exact Hs1|].
  - intros a b Ha Hb. apply elem_of_cons in Hb. destruct Hb as [->|Hb].
    + apply elem_of_take_lookup in Ha. destruct Ha as (k & Hk & Hka).
      now apply (Hlo k).
    + now apply Hcross.
  - constructor; [exact Hs2|]. apply List.Forall_forall. intros b Hb.
    apply list_elem_of_In, elem_of_drop_lookup in Hb. destruct Hb as (k & Hk & Hkb).
    now apply (Hhi k).
Qed.

Lemma lookup_insert_middle (l : list A) (x : A) (n j : nat) r :
  (n <= length l)%nat ->
  (take n l ++ x :: drop n l) !! j = Some r ->
  (j = n /\ r = x)
  \/ (exists k, l !! k = Some r /\ ((k < n)%nat \/ (n <= k)%nat) /\ j <> n).
Proof.
  intros Hn H.
  destruct (Nat.lt_total j n) as [Hj|[->|Hj]].
  - right. rewrite lookup_app_l in H by (rewrite length_take; lia).
    apply lookup_take_Some in H. exists j. split; [tauto|]. split; [left|]; lia.
  - left. rewrite list_lookup_middle in H by (rewrite length_take; lia).
    injection H as <-. now split.
  - right. rewrite lookup_app_r in H by (rewrite length_take; lia).
    rewrite length_take in H.
    replace (j - n `min` length l)%nat with (S (j - n - 1)) in H by lia.
    simpl in H. rewrite lookup_drop in H.
    exists (n + (j - n - 1))%nat. split; [exact H|]. split; [right|]; lia.
Qed.

(** C9, for the lists that leave room for one more record. If
    [operator <] is a strict weak order, a list has fewer than [2^31]
    records and its size in bytes with one more record fits a
    [uint32_t], and the list is in ascending order and holds no two
    records equal under the order, then [PushUnique(x)] ends without
    error, and afterwards the list is again in order and without equal
    records, exactly one of its records is equal to [x], the value
    returned is the index of that record, and the list is unchanged
    when a record equal to [x] was there before (otherwise [x] has been
    put in at the index returned). *)
Theorem PushUnique_keeps_sorted_unique (l : list A) (x : A) (fuel : nat) :
  GetNumEntries l < 2147483648 ->
  (GetNumEntries l + 1) * sizeof_RecordType < 4294967296 ->
  ascending lt l -> no_two_equal lt l -> (33 <= fuel)%nat ->
  exists l' i,
    PushUnique sizeof_RecordType zero lt fuel l x = Some (l', i, [])
    /\ ascending lt l' /\ no_two_equal lt l'
    /\ 0 <= i < GetNumEntries l'
    /\ (forall (j : nat) r, l' !! j = Some r -> (equiv lt r x = true <-> Z.of_nat j = i))
    /\ ((exists r, In r l /\ equiv lt r x = true) -> l' = l)
    /\ ((forall r, In r l -> equiv lt r x = false) ->
        l' = take (Z.to_nat i) l ++ x :: drop (Z.to_nat i) l).
Proof.
  intros HN Hsize Hasc Huniq Hfuel.
  assert (Hstrict : strictly_ascending lt l) by (apply strictly_ascending_iff; now split).
  destruct (FindFirst_raw lt l x fuel) as (r & E & Hr & Hchar); [lia|assumption|].
  specialize (Hchar (ascending_less_first lt SWO l x Hasc)).
  assert (H0 : 0 <= GetNumEntries l) by (unfold GetNumEntries; lia).
  unfold PushUnique. rewrite E.
  rewrite (to_int32_small r), (to_int32_small (GetNumEntries l)) by lia.
  rewrite (to_uint32_small r) by lia.
  (* the records before [r] are less than [x] *)
  assert (Hlo : forall (k : nat) rk, l !! k = Some rk -> (k < Z.to_nat r)%nat ->
                  lt rk x = true).
  { intros k rk Hk Hlt. apply (Hchar k rk Hk). lia. }
  (* the list after an insertion at [r] *)
  assert (Hins : (forall (k : nat) rk, l !! k = Some rk -> (Z.to_nat r <= k)%nat ->
                    lt x rk = true) ->
    exists l' i,
      match insert_at sizeof_RecordType zero r x l with
      | Some (e3, l'0) => Some (l'0, r, [] ++ [] ++ e3)
      | None => None
      end = Some (l', i, [])
      /\ ascending lt l' /\ no_two_equal lt l'
      /\ 0 <= i < GetNumEntries l'
      /\ (forall (j : nat) r0, l' !! j = Some r0 ->
            (equiv lt r0 x = true <-> Z.of_nat j = i))
      /\ ((exists r0, In r0 l /\ equiv lt r0 x = true) -> l' = l)
      /\ ((forall r0, In r0 l -> equiv lt r0 x = false) ->
          l' = take (Z.to_nat i) l ++ x :: drop (Z.to_nat i) l)).
  { intros Hhi.
    rewrite insert_at_spec; [|lia|lia|exact Hsize|].
    2:{ rewrite (to_int32_small (GetNumEntries l)) by lia. apply to_int32_small. lia. }
    exists (take (Z.to_nat r) l ++ x :: drop (Z.to_nat r) l), r.
    pose proof (insert_keeps_order l x (Z.to_nat r) Hstrict Hlo Hhi) as Hs'.
    apply strictly_ascending_iff in Hs'. destruct Hs' as [Ha' Hu'].
    assert (Hnone : forall a, In a l -> equiv lt a x = false).
    { intros a Ha. apply list_elem_of_In, list_elem_of_lookup in Ha.
      destruct Ha as [k Hk].
      destruct (Nat.lt_ge_cases k (Z.to_nat r)) as [Hlt|Hge].
      - apply lt_not_equiv. now apply (Hlo k).
      - rewrite equiv_sym. apply lt_not_equiv. now apply (Hhi k). }
    split; [reflexivity|]. split; [exact Ha'|]. split; [exact Hu'|]. split; [|split; [|split]].
    - unfold GetNumEntries in *.
      rewrite length_app, length_take. simpl. rewrite length_drop. lia.
    - intros j rj Hj.
      apply lookup_insert_middle in Hj; [|unfold GetNumEntries in *; lia].
      destruct Hj as [[-> ->]|(k & Hk & _ & Hne)].
      + rewrite equiv_refl. split; [lia|reflexivity].
      + rewrite (Hnone rj).
        * split; [discriminate|lia].
        * apply list_elem_of_In. eapply list_elem_of_lookup_2. exact Hk.
    - intros (a & Ha & Hax). rewrite (Hnone a Ha) in Hax. discriminate.
    - reflexivity. }
  destruct (Z.ltb_spec r (GetNumEntries l)) as [Hlt|Hge].
  - destruct (index_in_range l r) as (lr & -> & Hlr); [lia|].
    assert (Hlrx : lt lr x = false).
    { destruct (lt lr x) eqn:C; [|reflexivity].
      apply (Hchar _ _ Hlr) in C. lia. }
    destruct (lt x lr) eqn:Hxlr; simpl negb; cbv iota.
    + apply Hins. intros k rk Hk Hge.
      destruct (Nat.eq_dec k (Z.to_nat r)) as [->|Hne]; [congruence|].
      apply (lt_not_after_trans lt SWO x lr rk Hxlr).
      apply (ascending_lookup lt l (Z.to_nat r) k lr rk Hasc Hlr Hk). lia.
    + exists l, r. simpl.
      assert (Heq : equiv lt lr x = true) by (unfold equiv; now rewrite Hlrx, Hxlr).
      split; [reflexivity|]. split; [exact Hasc|]. split; [exact Huniq|].
      split; [lia|]. split; [|split].
      * intros j rj Hj. split.
        -- intros Hjx.
           assert (j = Z.to_nat r); [|lia].
           apply (Huniq j (Z.to_nat r) rj lr Hj Hlr).
           apply (equiv_trans rj x lr Hjx). now rewrite equiv_sym.
        -- intros Hjr. assert (j = Z.to_nat r) as -> by lia. congruence.
      * reflexivity.
      * intros Hnone. rewrite Hnone in Heq; [discriminate|].
        apply list_elem_of_In. eapply list_elem_of_lookup_2. exact Hlr.
  - apply Hins. intros k rk Hk Hk'.
    apply lookup_lt_Some in Hk. unfold GetNumEntries in *. lia.
Qed.

End Unique.

Lemma list_1357_strict : strictly_ascending Z.ltb [1; 3; 5; 7].
Proof. repeat constructor. Qed.

Lemma PushUnique_keeps_sorted_unique_witness :
  exists l' i,
    PushUnique 4 0 Z.ltb 33 [1; 3; 5; 7] 4 = Some (l', i, [])
    /\ ascending Z.ltb l' /\ no_two_equal Z.ltb l'
    /\ 0 <= i < GetNumEntries l'
    /\ (forall (j : nat) r, l' !! j = Some r -> (equiv Z.ltb r 4 = true <-> Z.of_nat j = i))
    /\ ((exists r, In r [1; 3; 5; 7] /\ equiv Z.ltb r 4 = true) -> l' = [1; 3; 5; 7])
    /\ ((forall r, In r [1; 3; 5; 7] -> equiv Z.ltb r 4 = false) ->
        l' = take (Z.to_nat i) [1; 3; 5; 7] ++ 4 :: drop (Z.to_nat i) [1; 3; 5; 7]).
Proof.
  exact (PushUnique_keeps_sorted_unique 4 0 Z.ltb Zltb_StrictWeakOrder [1; 3; 5; 7] 4 33
           eq_refl eq_refl
           (proj1 (proj1 (strictly_ascending_iff Z.ltb Zltb_StrictWeakOrder _)
                     list_1357_strict))
           (proj2 (proj1 (strictly_ascending_iff Z.ltb Zltb_StrictWeakOrder _)
                     list_1357_strict))
           (le_n 33)).
Defined.

(** A new record is put in at its place; a record that is there
    already is found and the list left alone. *)
Example PushUnique_new :
  PushUnique 4 0 Z.ltb 33 [1; 3; 5; 7] 4 = Some ([1; 3; 4; 5; 7], 2, []).
Proof. reflexivity. Qed.

Example PushUnique_old :
  PushUnique 4 0 Z.ltb 33 [1; 3; 5; 7] 5 = Some ([1; 3; 5; 7], 2, []).
Proof. reflexivity. Qed.

(** *** A list that fills the buffer *)

Lemma count_2p30m1_value : Z.of_nat count_2p30m1 = 1073741823.
Proof. exact (proj2_sig nat_2p30m1). Qed.

Lemma iota_2p30m1_NumEntries : GetNumEntries iota_2p30m1 = 1073741823.
Proof.
  unfold GetNumEntries, iota_2p30m1.
  rewrite length_fmap, length_seq. exact count_2p30m1_value.
Qed.

Lemma iota_2p30m1_lookup (k : nat) r :
  iota_2p30m1 !! k = Some r <-> (k < count_2p30m1)%nat /\ r = Z.of_nat k.
Proof.
  unfold iota_2p30m1. rewrite list_lookup_fmap. split.
  - intros H. destruct (seq 0 count_2p30m1 !! k) as [n|] eqn:E; [|discriminate].
    apply lookup_seq in E. destruct E as [-> Hk]. simpl in H.
    split; [exact Hk|congruence].
  - intros [Hk ->]. now rewrite (lookup_seq_lt 0 count_2p30m1 k Hk).
Qed.

Lemma iota_2p30m1_strict : strictly_ascending Z.ltb iota_2p30m1.
Proof.
  apply StronglySorted_lookup. intros i j a b Hij Hi Hj.
  apply iota_2p30m1_lookup in Hi, Hj. apply Z.ltb_lt. lia.
Qed.

(** Every record of the list is less than [2^30 - 1], and [FindFirst]
    returns the number of records. *)
Lemma FindFirst_iota_2p30m1 :
  FindFirst Z.ltb 33 iota_2p30m1 1073741823 = Some (1073741823, []).
Proof.
  pose proof count_2p30m1_value as Hc.
  pose proof (proj1 (strictly_ascending_iff Z.ltb Zltb_StrictWeakOrder _)
                iota_2p30m1_strict) as [Hasc _].
  destruct (FindFirst_raw Z.ltb iota_2p30m1 1073741823 33) as (r & E & Hr & Hchar);
    [rewrite iota_2p30m1_NumEntries; lia|lia|].
  rewrite iota_2p30m1_NumEntries in Hr.
  specialize (Hchar (ascending_less_first Z.ltb Zltb_StrictWeakOrder _ _ Hasc)).
  assert (r = 1073741823) as ->; [|exact E].
  destruct (Z.eq_dec r 1073741823) as [?|Hne]; [assumption|].
  assert (Hk : iota_2p30m1 !! Z.to_nat r = Some (Z.of_nat (Z.to_nat r)))
    by (apply iota_2p30m1_lookup; split; [lia|reflexivity]).
  pose proof (proj1 (Hchar _ _ Hk)) as H. rewrite Z.ltb_lt in H. lia.
Qed.

(** C9 as stated fails in two ways. For every list: the list 0, 1, 2,
    ... of [2^30 - 1] records of 4 bytes is in order and without equal
    records, and it fits: its size is 4 bytes below [2^32]. It holds no
    record equal to [2^30 - 1]; the search for that record ends at the
    index [2^30 - 1], and [PushUnique] then asks [SetNum] for [2^30]
    records, whose size in bytes is [2^32], which is 0 as a [uint32_t]:
    the call does not come back with a list, whatever the fuel. For
    every [operator <]: under the strict partial order
    [two_below_three] the list 2, 3 is in order and without equal
    records; [PushUnique(0)] leaves it as it is, with two records equal
    to 0 under the order. *)
Lemma PushUnique_full_buffer_counterexample :
  (StrictWeakOrder Z.ltb
   /\ GetNumEntries iota_2p30m1 = 1073741823
   /\ GetNumEntries iota_2p30m1 * 4 < 4294967296
   /\ ascending Z.ltb iota_2p30m1 /\ no_two_equal Z.ltb iota_2p30m1
   /\ (forall r, In r iota_2p30m1 -> equiv Z.ltb r 1073741823 = false)
   /\ FindFirst Z.ltb 33 iota_2p30m1 1073741823 = Some (1073741823, [])
   /\ SetNum 4 0 (to_uint32 (GetNumEntries iota_2p30m1 + 1)) iota_2p30m1 = None
   /\ forall fuel : nat, PushUnique 4 0 Z.ltb fuel iota_2p30m1 1073741823 = None)
  /\ (ascending two_below_three [2; 3] /\ no_two_equal two_below_three [2; 3]
      /\ PushUnique 4 0 two_below_three 33 [2; 3] 0 = Some ([2; 3], 0, [])
      /\ equiv two_below_three 2 0 = true /\ equiv two_below_three 3 0 = true).
Proof.
  pose proof iota_2p30m1_NumEntries as HN.
  pose proof count_2p30m1_value as Hc.
  split.
  - split; [exact Zltb_StrictWeakOrder|]. split; [exact HN|].
    split; [rewrite HN; reflexivity|].
    split; [|split; [|split; [|split; [exact FindFirst_iota_2p30m1|split]]]].
    + apply (strictly_ascending_iff Z.ltb Zltb_StrictWeakOrder), iota_2p30m1_strict.
    + apply (strictly_ascending_iff Z.ltb Zltb_StrictWeakOrder), iota_2p30m1_strict.
    + intros r Hr. apply list_elem_of_In, list_elem_of_lookup in Hr.
      destruct Hr as [k Hk]. apply iota_2p30m1_lookup in Hk. destruct Hk as [Hk ->].
      unfold equiv. replace (Z.of_nat k <? 1073741823) with true; [reflexivity|].
      symmetry. apply Z.ltb_lt. lia.
    + rewrite HN. reflexivity.
    + intros fuel. unfold PushUnique.
      destruct (FindFirst Z.ltb fuel iota_2p30m1 1073741823) as [[i e]|] eqn:E;
        [|reflexivity].
      pose proof FindFirst_iota_2p30m1 as E33.
      apply (FindFirst_fuel_mono Z.ltb _ _ fuel (Nat.max fuel 33)) in E; [|lia].
      apply (FindFirst_fuel_mono Z.ltb _ _ 33 (Nat.max fuel 33)) in E33; [|lia].
      rewrite E in E33. injection E33 as -> ->.
      rewrite HN.
      change (1073741823 <? to_int32 1073741823) with false. cbv iota.
      unfold insert_at. rewrite HN. reflexivity.
  - split; [unfold ascending; repeat constructor|].
    split; [|split; [vm_compute; reflexivity|split; reflexivity]].
    intros i j ri rj Hi Hj He.
    destruct i as [|[|i]], j as [|[|j]]; simpl in Hi, Hj; try discriminate;
      try reflexivity; injection Hi as <-; injection Hj as <-; discriminate He.
Qed.

(* ================================================================== *)
(** * Part III: further properties of the code *)
(* ================================================================== *)

(** ** [CSList::FindFirst] and [CSList::Exists] on any list *)

Import Containers.

Section SearchAnyList.

Context {A : Type}.
Variable lt : A -> A -> bool.

(** The loop keeps a boundary between [a] and [b] whatever the order
    of the list: [a] only moves behind a record less than [x], [b] only
    onto a record that is not. *)
Lemma FindFirst_loop_boundary (l : list A) (x : A) :
  GetNumEntries l <= 2147483648 ->
  forall (k fuel : nat) (a b : Z) (errs : list Z),
    (k < fuel)%nat -> 0 <= a <= b -> b <= GetNumEntries l -> b - a < 2 ^ Z.of_nat k ->
    (0 < a -> exists r, l !! Z.to_nat (a - 1) = Some r /\ lt r x = true) ->
    (b < GetNumEntries l -> exists r, l !! Z.to_nat b = Some r /\ lt r x = false) ->
    exists r,
      FindFirst_loop lt fuel l x a b errs = Some (to_int32 r, errs)
      /\ a <= r <= b /\ boundary_at lt l x r.
Proof.
  intros HN. induction k as [|k IH]; intros fuel a b errs Hk Hab Hb Hsz Ha Hbb;
    (destruct fuel as [|fuel]; [lia|]); simpl.
  - destruct (Z.ltb_spec a b) as [?|_]; [simpl in Hsz; lia|].
    assert (a = b) as -> by lia. exists b. repeat split; try lia; assumption.
  - destruct (Z.ltb_spec a b) as [Hlt|Hge].
    2:{ assert (a = b) as -> by lia. exists b. repeat split; try lia; assumption. }
    rewrite (to_uint32_small (a + b)) by lia.
    set (c := (a + b) / 2).
    assert (Hc : a <= c < b) by (subst c; split;
      [apply Z.div_le_lower_bound | apply Z.div_lt_upper_bound]; lia).
    destruct (index_in_range l c) as (r & -> & Hr); [lia|].
    rewrite app_nil_r.
    rewrite Nat2Z.inj_succ, Z.pow_succ_r in Hsz by lia.
    assert (Hhalf : b - (c + 1) < 2 ^ Z.of_nat k /\ c - a < 2 ^ Z.of_nat k).
    { subst c. pose proof (Z.div_mod (a + b) 2 ltac:(lia)) as D.
      pose proof (Z.mod_pos_bound (a + b) 2 ltac:(lia)). lia. }
    destruct (lt r x) eqn:Hrx.
    + rewrite (to_uint32_small (c + 1)) by lia.
      destruct (IH fuel (c + 1) b errs) as (res & E & Hres & Hpost); try lia.
      { intros _. exists r. replace (c + 1 - 1) with c by lia. now split. }
      { exact Hbb. }
      exists res. split; [exact E|]. split; [lia|exact Hpost].
    + destruct (IH fuel a c errs) as (res & E & Hres & Hpost); try lia.
      { exact Ha. }
      { intros _. exists r. now split. }
      exists res. split; [exact E|]. split; [lia|exact Hpost].
Qed.

Lemma FindFirst_boundary_raw (l : list A) (x : A) (fuel : nat) :
  GetNumEntries l < 2147483648 -> (33 <= fuel)%nat ->
  exists r,
    FindFirst lt fuel l x = Some (r, [])
    /\ 0 <= r <= GetNumEntries l /\ boundary_at lt l x r.
Proof.
  intros HN Hf. unfold FindFirst.
  assert (H0 : 0 <= GetNumEntries l) by (unfold GetNumEntries; lia).
  destruct (FindFirst_loop_boundary l x ltac:(lia) 32 fuel 0 (GetNumEntries l) []
              ltac:(lia) ltac:(lia) ltac:(lia) ltac:(simpl; lia)
              ltac:(intros C; lia) ltac:(intros C; lia))
    as (r & E & Hr & Hpost).
  rewrite to_int32_small in E by lia.
  exists r. split; [exact E|]. split; [exact Hr|exact Hpost].
Qed.

(** What [Exists] computes from the result [r] of [FindFirst]. *)
Lemma Exists_after_FindFirst (l : list A) (x : A) (fuel : nat) (r : Z) :
  GetNumEntries l < 2147483648 -> 0 <= r <= GetNumEntries l ->
  FindFirst lt fuel l x = Some (r, []) ->
  (r = GetNumEntries l /\ Exists lt fuel l x = Some (-1, []))
  \/ (exists ri, r < GetNumEntries l /\ l !! Z.to_nat r = Some ri
        /\ Exists lt fuel l x = Some (if lt x ri then -1 else r, [])).
Proof.
  intros HN Hr E. unfold Exists. rewrite E. cbv zeta.
  rewrite (to_uint32_small r) by lia.
  destruct (Z.eqb_spec r (GetNumEntries l)) as [->|Hne]; [left; now split|].
  right. destruct (index_in_range l r) as (ri & -> & Hri); [lia|].
  exists ri. split; [lia|]. split; [exact Hri|].
  rewrite to_int32_small by lia. reflexivity.
Qed.

End SearchAnyList.

(** X1. On any list of fewer than [2^31] records, sorted or not, and
    for any [operator <], [FindFirst] ends without error at a boundary:
    the record before the index returned, if there is one, is less than
    [x], and the record at the index, if there is one, is not. *)
Theorem FindFirst_returns_boundary {A : Type} (lt : A -> A -> bool)
    (l : list A) (x : A) (fuel : nat) :
  GetNumEntries l < 2147483648 -> (33 <= fuel)%nat ->
  exists i,
    FindFirst lt fuel l x = Some (i, [])
    /\ 0 <= i <= GetNumEntries l
    /\ (0 < i -> exists r, l !! Z.to_nat (i - 1) = Some r /\ lt r x = true)
    /\ (i < GetNumEntries l -> exists r, l !! Z.to_nat i = Some r /\ lt r x = false).
Proof.
  intros HN Hf.
  destruct (FindFirst_boundary_raw lt l x fuel HN Hf) as (r & E & Hr & Hlo & Hhi).
  exists r. repeat split; try assumption; lia.
Qed.

Lemma FindFirst_returns_boundary_witness :
  exists i,
    FindFirst Z.ltb 33 [5; 1; 4; 2] 3 = Some (i, [])
    /\ 0 <= i <= GetNumEntries [5; 1; 4; 2]
    /\ (0 < i -> exists r, [5; 1; 4; 2] !! Z.to_nat (i - 1) = Some r /\ Z.ltb r 3 = true)
    /\ (i < GetNumEntries [5; 1; 4; 2] ->
        exists r, [5; 1; 4; 2] !! Z.to_nat i = Some r /\ Z.ltb r 3 = false).
Proof.
  exact (FindFirst_returns_boundary Z.ltb [5; 1; 4; 2] 3 33 eq_refl (le_n 33)).
Defined.

(** X2. [Exists] never reports a record that is not there: on any list
    of fewer than [2^31] records, sorted or not, it ends without error
    and returns -1 or the index of a record equal to [x]. *)
Theorem Exists_reports_equal_record {A : Type} (lt : A -> A -> bool)
    (l : list A) (x : A) (fuel : nat) :
  GetNumEntries l < 2147483648 -> (33 <= fuel)%nat ->
  exists i,
    Exists lt fuel l x = Some (i, [])
    /\ (i = -1
        \/ (0 <= i < GetNumEntries l
            /\ exists r, l !! Z.to_nat i = Some r /\ equiv lt r x = true)).
Proof.
  intros HN Hf.
  destruct (FindFirst_boundary_raw lt l x fuel HN Hf) as (r & E & Hr & _ & Hhi).
  destruct (Exists_after_FindFirst lt l x fuel r HN Hr E)
    as [[_ ->]|(ri & Hlt & Hri & ->)].
  - exists (-1). split; [reflexivity|now left].
  - destruct (lt x ri) eqn:Hx.
    + exists (-1). split; [reflexivity|now left].
    + exists r. split; [reflexivity|]. right. split; [lia|].
      exists ri. split; [exact Hri|].
      destruct (Hhi Hlt) as (r' & Hr' & Hless). assert (r' = ri) as -> by congruence.
      unfold equiv. now rewrite Hless, Hx.
Qed.

Lemma Exists_reports_equal_record_witness :
  exists i,
    Exists Z.ltb 33 [5; 1; 4; 2] 4 = Some (i, [])
    /\ (i = -1
        \/ (0 <= i < GetNumEntries [5; 1; 4; 2]
            /\ exists r, [5; 1; 4; 2] !! Z.to_nat i = Some r /\ equiv Z.ltb r 4 = true)).
Proof.
  exact (Exists_reports_equal_record Z.ltb [5; 1; 4; 2] 4 33 eq_refl (le_n 33)).
Defined.

(** On an unsorted list a record that is there can be missed. *)
Example Exists_unsorted_miss : Exists Z.ltb 33 [5; 1; 4; 2] 5 = Some (-1, []).
Proof. vm_compute. reflexivity. Qed.

Section SearchSorted.

Context {A : Type}.
Variable lt : A -> A -> bool.
Hypothesis SWO : StrictWeakOrder lt.

(** The search in a list in ascending order: the index found splits
    the records less than [x] from the others, and the records from the
    index on are either all greater than [x], or the one at the index
    is equal to [x]. *)
Lemma FindFirst_sorted_cases (l : list A) (x : A) (fuel : nat) :
  GetNumEntries l < 2147483648 -> (33 <= fuel)%nat -> ascending lt l ->
  exists r,
    FindFirst lt fuel l x = Some (r, [])
    /\ 0 <= r <= GetNumEntries l
    /\ (forall (k : nat) rk, l !! k = Some rk -> (lt rk x = true <-> Z.of_nat k < r))
    /\ ((exists ri, l !! Z.to_nat r = Some ri /\ lt x ri = false
           /\ equiv lt ri x = true /\ r < GetNumEntries l)
        \/ ((forall (k : nat) rk, l !! k = Some rk -> r <= Z.of_nat k -> lt x rk = true)
            /\ (forall a, In a l -> equiv lt a x = false)
            /\ (forall ri, l !! Z.to_nat r = Some ri -> lt x ri = true))).
Proof.
  intros HN Hf Hasc.
  destruct (FindFirst_raw lt l x fuel) as (r & E & Hr & Hchar); [lia|exact Hf|].
  rewrite to_int32_small in E by lia.
  specialize (Hchar (ascending_less_first lt SWO l x Hasc)).
  exists r. split; [exact E|]. split; [exact Hr|]. split; [exact Hchar|].
  assert (Hall : (forall (k : nat) rk, l !! k = Some rk -> r <= Z.of_nat k -> lt x rk = true) ->
                 forall a, In a l -> equiv lt a x = false).
  { intros Hhi a Ha. apply list_elem_of_In, list_elem_of_lookup in Ha.
    destruct Ha as [k Hk].
    destruct (Z.lt_ge_cases (Z.of_nat k) r) as [Hlt|Hge].
    - apply lt_not_equiv. now apply (Hchar k a Hk).
    - rewrite equiv_sym. apply lt_not_equiv. apply (Hhi k a Hk). lia. }
  destruct (Z.eq_dec r (GetNumEntries l)) as [->|Hne].
  - right.
    assert (Hhi : forall (k : nat) rk, l !! k = Some rk ->
                    GetNumEntries l <= Z.of_nat k -> lt x rk = true).
    { intros k rk Hk Hge. apply lookup_lt_Some in Hk. unfold GetNumEntries in Hge. lia. }
    split; [exact Hhi|]. split; [now apply Hall|].
    intros ri Hri. apply (Hhi _ _ Hri). lia.
  - destruct (lookup_lt_is_Some_2 l (Z.to_nat r)) as [ri Hri];
      [unfold GetNumEntries in *; lia|].
    assert (Hrix : lt ri x = false).
    { destruct (lt ri x) eqn:C; [|reflexivity]. apply (Hchar _ _ Hri) in C. lia. }
    destruct (lt x ri) eqn:Hx.
    + right.
      assert (Hhi : forall (k : nat) rk, l !! k = Some rk -> r <= Z.of_nat k ->
                      lt x rk = true).
      { intros k rk Hk Hge.
        destruct (Nat.eq_dec k (Z.to_nat r)) as [->|Hnk]; [congruence|].
        apply (lt_not_after_trans lt SWO x ri rk Hx).
        apply (ascending_lookup lt l (Z.to_nat r) k ri rk Hasc Hri Hk). lia. }
      split; [exact Hhi|]. split; [now apply Hall|].
      intros ri' Hri'. congruence.
    + left. exists ri. split; [exact Hri|]. split; [exact Hx|].
      split; [|lia]. unfold equiv. now rewrite Hrix, Hx.
Qed.

End SearchSorted.

(** X3. In a list of fewer than [2^31] records in ascending order under
    a strict weak order, [Exists(x)] returns -1 exactly when no record
    is equal to [x], and otherwise the least index of a record equal to
    [x]. *)
Theorem Exists_finds_first_equal {A : Type} (lt : A -> A -> bool)
    (l : list A) (x : A) (fuel : nat) :
  StrictWeakOrder lt -> ascending lt l ->
  GetNumEntries l < 2147483648 -> (33 <= fuel)%nat ->
  exists i,
    Exists lt fuel l x = Some (i, [])
    /\ (i = -1 <-> forall r, In r l -> equiv lt r x = false)
    /\ (i <> -1 ->
        0 <= i < GetNumEntries l
        /\ (exists ri, l !! Z.to_nat i = Some ri /\ equiv lt ri x = true)
        /\ forall (k : nat) rk, l !! k = Some rk -> equiv lt rk x = true -> i <= Z.of_nat k).
Proof.
  intros SWO Hasc HN Hf.
  destruct (FindFirst_sorted_cases lt SWO l x fuel HN Hf Hasc)
    as (r & E & Hr & Hchar & Hcases).
  destruct (Exists_after_FindFirst lt l x fuel r HN Hr E)
    as [[HrN ->]|(ri & Hlt & Hri & ->)].
  - exists (-1). split; [reflexivity|]. split; [|intros C; now contradiction C].
    split; [|reflexivity]. intros _.
    destruct Hcases as [(ri & _ & _ & _ & Hlt)|(_ & Hnone & _)]; [lia|exact Hnone].
  - destruct Hcases as [(ri' & Hri' & Hx & Heq & _)|(_ & Hnone & Hx)].
    + assert (ri' = ri) as -> by congruence. rewrite Hx.
      exists r. split; [reflexivity|]. split; [|intros _; split; [lia|split]].
      * split; [lia|]. intros Hnone.
        rewrite Hnone in Heq; [discriminate|].
        apply list_elem_of_In. eapply list_elem_of_lookup_2. exact Hri.
      * now exists ri.
      * intros k rk Hk Hkx.
        destruct (Z.lt_ge_cases (Z.of_nat k) r) as [Hklt|?]; [|assumption].
        apply (Hchar k rk Hk) in Hklt.
        rewrite (lt_not_equiv lt rk x Hklt) in Hkx. discriminate.
    + rewrite (Hx ri Hri).
      exists (-1). split; [reflexivity|]. split; [|intros C; now contradiction C].
      split; [intros _; exact Hnone|reflexivity].
Qed.

Lemma Exists_finds_first_equal_witness :
  exists i,
    Exists Z.ltb 33 [1; 3; 5; 7] 5 = Some (i, [])
    /\ (i = -1 <-> forall r, In r [1; 3; 5; 7] -> equiv Z.ltb r 5 = false)
    /\ (i <> -1 ->
        0 <= i < GetNumEntries [1; 3; 5; 7]
        /\ (exists ri, [1; 3; 5; 7] !! Z.to_nat i = Some ri /\ equiv Z.ltb ri 5 = true)
        /\ forall (k : nat) rk, [1; 3; 5; 7] !! k = Some rk ->
             equiv Z.ltb rk 5 = true -> i <= Z.of_nat k).
Proof.
  exact (Exists_finds_first_equal Z.ltb [1; 3; 5; 7] 5 33 Zltb_StrictWeakOrder
           (proj1 (proj1 (strictly_ascending_iff Z.ltb Zltb_StrictWeakOrder [1; 3; 5; 7])
                     list_1357_strict))
           eq_refl (le_n 33)).
Defined.

(** ** [CSList::PushSort], [CSList::Remove] and their round trips *)

Section InsertRemove.

Context {A : Type}.
Variable sizeof_RecordType : Z.
Variable zero : A.
Variable lt : A -> A -> bool.

(** What [PushSort] does with the result [r] of [FindFirst]. *)
Lemma PushSort_after_FindFirst (l : list A) (x : A) (fuel : nat) (r : Z) :
  GetNumEntries l < 2147483648 ->
  (GetNumEntries l + 1) * sizeof_RecordType < 4294967296 ->
  0 <= r <= GetNumEntries l ->
  FindFirst lt fuel l x = Some (r, []) ->
  PushSort sizeof_RecordType zero lt fuel l x
  = Some (take (Z.to_nat r) l ++ x :: drop (Z.to_nat r) l, r, []).
Proof.
  intros HN Hsize Hr E. unfold PushSort. rewrite E.
  rewrite insert_at_spec; [reflexivity|lia|lia|exact Hsize|].
  rewrite (to_int32_small (GetNumEntries l)) by (unfold GetNumEntries in *; lia).
  apply to_int32_small. lia.
Qed.

(** What [PushUnique] does with the result [r] of [FindFirst]: the
    list is left alone when the record at [r] is not greater than [x],
    and otherwise [x] is put in at [r], as by [PushSort]. *)
Lemma PushUnique_after_FindFirst (l : list A) (x : A) (fuel : nat) (r : Z) :
  GetNumEntries l < 2147483648 ->
  0 <= r <= GetNumEntries l ->
  FindFirst lt fuel l x = Some (r, []) ->
  (exists ri, r < GetNumEntries l /\ l !! Z.to_nat r = Some ri /\ lt x ri = false
     /\ PushUnique sizeof_RecordType zero lt fuel l x = Some (l, r, []))
  \/ ((r = GetNumEntries l \/ exists ri, l !! Z.to_nat r = Some ri /\ lt x ri = true)
      /\ PushUnique sizeof_RecordType zero lt fuel l x
         = PushSort sizeof_RecordType zero lt fuel l x).
Proof.
  intros HN Hr E. unfold PushUnique, PushSort. rewrite E.
  assert (H0 : 0 <= GetNumEntries l) by (unfold GetNumEntries; lia).
  rewrite (to_int32_small (GetNumEntries l)) by lia.
  rewrite (to_uint32_small r) by lia.
  destruct (Z.ltb_spec r (GetNumEntries l)) as [Hlt|Hge].
  - destruct (index_in_range l r) as (ri & -> & Hri); [lia|].
    destruct (lt x ri) eqn:Hx; simpl negb; cbv iota.
    + right. split; [right; now exists ri|].
      destruct (insert_at sizeof_RecordType zero r x l) as [[e3 l']|]; reflexivity.
    + left. exists ri. now repeat split.
  - right. split; [left; lia|].
    destruct (insert_at sizeof_RecordType zero r x l) as [[e3 l']|]; reflexivity.
Qed.

(** [Remove] on a list that fits its buffer. *)
Lemma Remove_spec (l : list A) (index_ : Z) :
  0 < sizeof_RecordType -> GetNumEntries l * sizeof_RecordType < 4294967296 ->
  0 <= index_ ->
  Remove sizeof_RecordType zero index_ l
  = Some (if index_ <? GetNumEntries l then delete (Z.to_nat index_) l else l).
Proof.
  intros Hs Hsize Hi. unfold Remove.
  assert (HN : 0 <= GetNumEntries l < 4294967296) by (unfold GetNumEntries in *; nia).
  destruct (Z.geb_spec index_ (GetNumEntries l)) as [Hge|Hlt];
    destruct (Z.ltb_spec index_ (GetNumEntries l)) as [Hlt'|Hge']; try lia; [reflexivity|].
  rewrite (to_uint32_small (GetNumEntries l - index_)) by lia.
  rewrite (to_uint32_small (GetNumEntries l - index_ - 1)) by lia.
  rewrite (to_uint32_small (GetNumEntries l - 1)) by lia.
  rewrite delete_take_drop.
  assert (Hshrink : forall l1 : list A,
            length l1 = length l ->
            SetNum sizeof_RecordType zero (GetNumEntries l - 1) l1
            = Some (take (Z.to_nat (GetNumEntries l - 1)) l1)).
  { intros l1 Hlen. unfold SetNum.
    destruct (Z.ltb_spec ((GetNumEntries l - 1) * sizeof_RecordType) 4294967296); [|nia].
    replace (Z.to_nat (GetNumEntries l - 1) - length l1)%nat with 0%nat
      by (unfold GetNumEntries; lia).
    simpl. now rewrite app_nil_r. }
  destruct (Z.gtb_spec (GetNumEntries l - index_ - 1) 0) as [Hgt|Hle].
  - unfold memmove_records.
    replace ((0 <=? index_ + 1) && (0 <=? index_) && (0 <=? GetNumEntries l - index_ - 1)
             && (index_ + 1 + (GetNumEntries l - index_ - 1) <=? GetNumEntries l)
             && (index_ + (GetNumEntries l - index_ - 1) <=? GetNumEntries l))
      with true by (symmetry; rewrite !andb_true_iff, !Z.leb_le; lia).
    unfold GetNumEntries in *.
    replace (Z.to_nat (index_ + 1)) with (S (Z.to_nat index_)) by lia.
    rewrite (take_ge (drop (S (Z.to_nat index_)) l)) by (rewrite length_drop; lia).
    rewrite Hshrink.
    2:{ rewrite !length_app, length_take, !length_drop. lia. }
    f_equal. rewrite app_assoc.
    apply take_app_length'. rewrite length_app, length_take, length_drop. lia.
  - rewrite Hshrink by reflexivity. f_equal. unfold GetNumEntries in *.
    replace (Z.to_nat (Z.of_nat (length l) - 1)) with (Z.to_nat index_) by lia.
    rewrite (drop_ge l (S (Z.to_nat index_))) by lia.
    now rewrite app_nil_r.
Qed.

(** Taking a record out keeps the order of the others. *)
Lemma StronglySorted_delete (R : A -> A -> Prop) (l : list A) (n : nat) :
  StronglySorted R l -> StronglySorted R (delete n l).
Proof.
  rewrite !StronglySorted_lookup. intros H i j a b Hij Hi Hj.
  rewrite list_lookup_delete in Hi, Hj.
  destruct (decide (i < n)%nat), (decide (j < n)%nat);
    (eapply H; [|exact Hi|exact Hj]); lia.
Qed.

Lemma no_two_equal_delete (l : list A) (n : nat) :
  no_two_equal lt l -> no_two_equal lt (delete n l).
Proof.
  intros H i j a b Hi Hj He.
  rewrite list_lookup_delete in Hi, Hj.
  pose proof (H _ _ a b Hi Hj He) as E.
  destruct (decide (i < n)%nat), (decide (j < n)%nat); lia.
Qed.

Hypothesis SWO : StrictWeakOrder lt.

(** Putting [x] behind the records less than it and before the others
    keeps the list in ascending order. *)
Lemma insert_keeps_ascending (l : list A) (x : A) (n : nat) :
  ascending lt l ->
  (forall (k : nat) rk, l !! k = Some rk -> (k < n)%nat -> lt rk x = true) ->
  (forall (k : nat) rk, l !! k = Some rk -> (n <= k)%nat -> lt rk x = false) ->
  ascending lt (take n l ++ x :: drop n l).
Proof.
  intros Hs Hlo Hhi. unfold ascending in *.
  rewrite <- (take_drop n l) in Hs. apply StronglySorted_app in Hs.
  destruct Hs as (Hcross & Hs1 & Hs2).
  apply StronglySorted_app_2; [|exact Hs1|].
  - intros a b Ha Hb. apply elem_of_cons in Hb. destruct Hb as [->|Hb].
    + apply elem_of_take_lookup in Ha. destruct Ha as (k & Hk & Hka).
      apply (lt_asym lt SWO). now apply (Hlo k).
    + now apply Hcross.
  - constructor; [exact Hs2|]. apply List.Forall_forall. intros b Hb.
    apply list_elem_of_In, elem_of_drop_lookup in Hb. destruct Hb as (k & Hk & Hkb).
    now apply (Hhi k).
Qed.


End InsertRemove.

(** X4. [PushSort(x)] on a list of fewer than [2^31] records that
    leaves room for one more puts [x] in at the index it returns and
    keeps every other record, in the order they had; no error is
    submitted. In an ascending list under a strict weak order, [x]
    comes behind the records less than it and before all others, also
    those equal to it, and the list stays in ascending order. *)
Theorem PushSort_inserts_in_order {A : Type} (sizeof_RecordType : Z) (zero : A)
    (lt : A -> A -> bool) (l : list A) (x : A) (fuel : nat) :
  GetNumEntries l < 2147483648 ->
  (GetNumEntries l + 1) * sizeof_RecordType < 4294967296 ->
  (33 <= fuel)%nat ->
  exists i,
    PushSort sizeof_RecordType zero lt fuel l x
    = Some (take (Z.to_nat i) l ++ x :: drop (Z.to_nat i) l, i, [])
    /\ 0 <= i <= GetNumEntries l
    /\ Permutation (take (Z.to_nat i) l ++ x :: drop (Z.to_nat i) l) (x :: l)
    /\ (StrictWeakOrder lt -> ascending lt l ->
        ascending lt (take (Z.to_nat i) l ++ x :: drop (Z.to_nat i) l)
        /\ forall (k : nat) rk, l !! k = Some rk -> (lt rk x = true <-> Z.of_nat k < i)).
Proof.
  intros HN Hsize Hf.
  destruct (FindFirst_raw lt l x fuel) as (r & E & Hr & Hchar); [lia|exact Hf|].
  rewrite to_int32_small in E by lia.
  exists r. split; [now apply PushSort_after_FindFirst|]. split; [exact Hr|]. split.
  - rewrite <- Permutation_middle. now rewrite take_drop.
  - intros SWO Hasc.
    specialize (Hchar (ascending_less_first lt SWO l x Hasc)).
    split; [|exact Hchar].
    apply (insert_keeps_ascending lt SWO); [exact Hasc| |].
    + intros k rk Hk Hlt. apply (Hchar k rk Hk). lia.
    + intros k rk Hk Hge. destruct (lt rk x) eqn:C; [|reflexivity].
      apply (Hchar k rk Hk) in C. lia.
Qed.

Lemma PushSort_inserts_in_order_witness :
  exists i,
    PushSort 4 0 Z.ltb 33 [1; 3; 3; 7] 3
    = Some (take (Z.to_nat i) [1; 3; 3; 7] ++ 3 :: drop (Z.to_nat i) [1; 3; 3; 7], i, [])
    /\ 0 <= i <= GetNumEntries [1; 3; 3; 7]
    /\ Permutation (take (Z.to_nat i) [1; 3; 3; 7] ++ 3 :: drop (Z.to_nat i) [1; 3; 3; 7])
         (3 :: [1; 3; 3; 7])
    /\ (StrictWeakOrder Z.ltb -> ascending Z.ltb [1; 3; 3; 7] ->
        ascending Z.ltb (take (Z.to_nat i) [1; 3; 3; 7] ++ 3 :: drop (Z.to_nat i) [1; 3; 3; 7])
        /\ forall (k : nat) rk, [1; 3; 3; 7] !! k = Some rk ->
             (Z.ltb rk 3 = true <-> Z.of_nat k < i)).
Proof.
  exact (PushSort_inserts_in_order 4 0 Z.ltb [1; 3; 3; 7] 3 33 eq_refl eq_refl (le_n 33)).
Defined.

Example PushSort_before_equal :
  PushSort 4 0 Z.ltb 33 [1; 3; 3; 7] 3 = Some ([1; 3; 3; 3; 7], 1, []).
Proof. reflexivity. Qed.

(** X5. [Remove(index)] on a list that fits its buffer ignores an index
    that is out of range, and otherwise takes out the record at
    [index] and nothing else: the records before it stay, the records
    after it move down one place, and the number of entries goes down
    by one. An ascending list stays ascending, and a list without equal
    records stays so. *)
Theorem Remove_takes_out_one_record {A : Type} (sizeof_RecordType : Z) (zero : A)
    (lt : A -> A -> bool) (l : list A) (index_ : Z) :
  0 < sizeof_RecordType -> GetNumEntries l * sizeof_RecordType < 4294967296 ->
  0 <= index_ ->
  exists l',
    Remove sizeof_RecordType zero index_ l = Some l'
    /\ (GetNumEntries l <= index_ -> l' = l)
    /\ (index_ < GetNumEntries l ->
        GetNumEntries l' = GetNumEntries l - 1
        /\ (forall k : nat, Z.of_nat k < index_ -> l' !! k = l !! k)
        /\ (forall k : nat, index_ <= Z.of_nat k -> l' !! k = l !! S k))
    /\ (ascending lt l -> ascending lt l')
    /\ (no_two_equal lt l -> no_two_equal lt l').
Proof.
  intros Hs Hsize Hi.
  rewrite (Remove_spec sizeof_RecordType zero l index_ Hs Hsize Hi).
  destruct (Z.ltb_spec index_ (GetNumEntries l)) as [Hlt|Hge].
  - exists (delete (Z.to_nat index_) l). split; [reflexivity|]. split; [lia|].
    split; [|split].
    + intros _. split; [|split].
      * unfold GetNumEntries in *. rewrite length_delete; [lia|].
        apply lookup_lt_is_Some_2. lia.
      * intros k Hk. apply list_lookup_delete_lt. lia.
      * intros k Hk. apply list_lookup_delete_ge. lia.
    + apply StronglySorted_delete.
    + apply no_two_equal_delete.
  - exists l. split; [reflexivity|]. split; [reflexivity|]. split; [lia|]. now split.
Qed.

Lemma Remove_takes_out_one_record_witness :
  exists l',
    Remove 4 0 1 [1; 3; 5; 7] = Some l'
    /\ (GetNumEntries [1; 3; 5; 7] <= 1 -> l' = [1; 3; 5; 7])
    /\ (1 < GetNumEntries [1; 3; 5; 7] ->
        GetNumEntries l' = GetNumEntries [1; 3; 5; 7] - 1
        /\ (forall k : nat, Z.of_nat k < 1 -> l' !! k = [1; 3; 5; 7] !! k)
        /\ (forall k : nat, 1 <= Z.of_nat k -> l' !! k = [1; 3; 5; 7] !! S k))
    /\ (ascending Z.ltb [1; 3; 5; 7] -> ascending Z.ltb l')
    /\ (no_two_equal Z.ltb [1; 3; 5; 7] -> no_two_equal Z.ltb l').
Proof.
  exact (Remove_takes_out_one_record 4 0 Z.ltb [1; 3; 5; 7] 1 eq_refl eq_refl
           (Z.le_0_1)).
Defined.

Example Remove_second : Remove 4 0 1 [1; 3; 5; 7] = Some [1; 5; 7].
Proof. reflexivity. Qed.

(** X6. [PushSort(x)] followed by [Remove] at the index it returned
    gives back the list as it was, whatever its order. *)
Theorem PushSort_then_Remove_restores {A : Type} (sizeof_RecordType : Z) (zero : A)
    (lt : A -> A -> bool) (l : list A) (x : A) (fuel : nat) :
  0 < sizeof_RecordType ->
  GetNumEntries l < 2147483648 ->
  (GetNumEntries l + 1) * sizeof_RecordType < 4294967296 ->
  (33 <= fuel)%nat ->
  exists l' i,
    PushSort sizeof_RecordType zero lt fuel l x = Some (l', i, [])
    /\ Remove sizeof_RecordType zero i l' = Some l.
Proof.
  intros Hs HN Hsize Hf.
  destruct (FindFirst_raw lt l x fuel) as (r & E & Hr & _); [lia|exact Hf|].
  rewrite to_int32_small in E by lia.
  exists (take (Z.to_nat r) l ++ x :: drop (Z.to_nat r) l), r.
  split; [now apply PushSort_after_FindFirst|].
  assert (Hlen : GetNumEntries (take (Z.to_nat r) l ++ x :: drop (Z.to_nat r) l)
                 = GetNumEntries l + 1).
  { unfold GetNumEntries in *. rewrite length_app, length_take. simpl.
    rewrite length_drop. lia. }
  rewrite Remove_spec; [|exact Hs|rewrite Hlen; exact Hsize|lia].
  rewrite Hlen. destruct (Z.ltb_spec r (GetNumEntries l + 1)) as [_|?]; [|lia].
  f_equal.
  replace (Z.to_nat r) with (length (take (Z.to_nat r) l)) at 1
    by (rewrite length_take; unfold GetNumEntries in *; lia).
  rewrite delete_middle. apply take_drop.
Qed.

Lemma PushSort_then_Remove_restores_witness :
  exists l' i,
    PushSort 4 0 Z.ltb 33 [5; 1; 4; 2] 3 = Some (l', i, [])
    /\ Remove 4 0 i l' = Some [5; 1; 4; 2].
Proof.
  exact (PushSort_then_Remove_restores 4 0 Z.ltb [5; 1; 4; 2] 3 33
           eq_refl eq_refl eq_refl (le_n 33)).
Defined.



(** X8. [PushUnique] is [Exists] followed by [PushSort]: on any list of
    fewer than [2^31] records, when [Exists(x)] returns an index,
    [PushUnique(x)] returns that index and leaves the list alone, and
    when [Exists(x)] returns -1, [PushUnique(x)] does what
    [PushSort(x)] does. *)
Theorem PushUnique_is_Exists_or_PushSort {A : Type} (sizeof_RecordType : Z) (zero : A)
    (lt : A -> A -> bool) (l : list A) (x : A) (fuel : nat) :
  GetNumEntries l < 2147483648 -> (33 <= fuel)%nat ->
  exists i,
    Exists lt fuel l x = Some (i, [])
    /\ PushUnique sizeof_RecordType zero lt fuel l x
       = (if i =? -1 then PushSort sizeof_RecordType zero lt fuel l x
          else Some (l, i, [])).
Proof.
  intros HN Hf.
  destruct (FindFirst_raw lt l x fuel) as (r & E & Hr & _); [lia|exact Hf|].
  rewrite to_int32_small in E by lia.
  destruct (PushUnique_after_FindFirst sizeof_RecordType zero lt l x fuel r HN Hr E)
    as [(ri & Hlt & Hri & Hx & ->)|[Hcase ->]];
    destruct (Exists_after_FindFirst lt l x fuel r HN Hr E)
      as [[HrN ->]|(ri' & Hlt' & Hri' & ->)]; try lia.
  - assert (ri' = ri) as -> by congruence. rewrite Hx.
    exists r. split; [reflexivity|].
    destruct (Z.eqb_spec r (-1)); [lia|reflexivity].
  - exists (-1). now split.
  - destruct Hcase as [?|(ri & Hri & Hx)]; [lia|].
    assert (ri' = ri) as -> by congruence. rewrite Hx.
    exists (-1). now split.
Qed.

Lemma PushUnique_is_Exists_or_PushSort_witness :
  exists i,
    Exists Z.ltb 33 [5; 1; 4; 2] 4 = Some (i, [])
    /\ PushUnique 4 0 Z.ltb 33 [5; 1; 4; 2] 4
       = (if i =? -1 then PushSort 4 0 Z.ltb 33 [5; 1; 4; 2] 4
          else Some ([5; 1; 4; 2], i, [])).
Proof.
  exact (PushUnique_is_Exists_or_PushSort 4 0 Z.ltb [5; 1; 4; 2] 4 33 eq_refl (le_n 33)).
Defined.

(** ** [CSList::Sort] on sorted lists, and what it does for a search *)

Section SortMore.

Context {A : Type}.
Variable lt : A -> A -> bool.

(** A step of the inner loop finds nothing to swap in an ascending
    list. *)
Lemma Sort_step_ascending (l : list A) (j : Z) :
  ascending lt l -> 0 <= j -> Sort_step lt j l = l.
Proof.
  intros Hs Hj. unfold Sort_step.
  destruct (l !! Z.to_nat j) as [p1|] eqn:H1; [|reflexivity].
  destruct (l !! Z.to_nat (j + 1)) as [p2|] eqn:H2; [|reflexivity].
  unfold ascending in Hs. rewrite StronglySorted_lookup in Hs.
  rewrite (Hs (Z.to_nat j) (Z.to_nat (j + 1)) p1 p2 ltac:(lia) H1 H2). reflexivity.
Qed.

Lemma Sort_ascending_unchanged (l : list A) : ascending lt l -> Sort lt l = l.
Proof.
  intros Hs. unfold Sort. cbv zeta.
  set (n := to_int32 (GetNumEntries l)).
  apply (for_loop_ind (fun (_ : Z) (t : list A) => t = l)); [reflexivity|].
  intros i t _ ->.
  apply (for_loop_ind (fun (_ : Z) (t : list A) => t = l)); [reflexivity|].
  intros j t Hj ->. apply Sort_step_ascending; [exact Hs|lia].
Qed.

Hypothesis SWO : StrictWeakOrder lt.

(** The outer loop of [Sort] ends with its invariant at [NumEntries]. *)
Lemma Sort_reaches_inv (l : list A) :
  GetNumEntries l < 2147483648 -> Sort_inv lt l (GetNumEntries l) (Sort lt l).
Proof.
  intros HN. unfold Sort. cbv zeta.
  assert (Hn : to_int32 (GetNumEntries l) = GetNumEntries l)
    by (apply to_int32_small; unfold GetNumEntries in *; lia).
  rewrite Hn.
  replace (GetNumEntries l) with (0 + Z.of_nat (Z.to_nat (GetNumEntries l))) at 1
    by (unfold GetNumEntries; lia).
  apply for_loop_ind; [apply Sort_inv_init|].
  intros i t Hi Hinv.
  pose proof (Sort_round lt SWO l i t HN ltac:(unfold GetNumEntries in *; lia) Hinv) as H.
  rewrite Hn in H. exact H.
Qed.

Lemma Sort_inv_done (l l' : list A) :
  Sort_inv lt l (GetNumEntries l) l' ->
  Permutation l' l /\ ascending lt l' /\ forall x, class_of lt x l' = class_of lt x l.
Proof.
  intros (Hp & Hc & front & back & E & Hb & Hs & _).
  split; [exact Hp|]. split; [|exact Hc].
  pose proof (Permutation_length Hp) as Hlen.
  rewrite E in Hlen |- *. rewrite length_app in Hlen.
  unfold GetNumEntries in Hb.
  destruct front; [exact Hs|simpl in Hlen; lia].
Qed.

Lemma Sort_done (l : list A) :
  GetNumEntries l < 2147483648 ->
  Permutation (Sort lt l) l /\ ascending lt (Sort lt l)
  /\ forall x, class_of lt x (Sort lt l) = class_of lt x l.
Proof. intros HN. apply Sort_inv_done, Sort_reaches_inv, HN. Qed.

End SortMore.

(** X9. [Sort] leaves a list that is in ascending order as it is,
    whatever its length and whatever [operator <] is. *)
Theorem Sort_leaves_ascending_list {A : Type} (lt : A -> A -> bool) (l : list A) :
  ascending lt l -> Sort lt l = l.
Proof.
  intros Hs. rewrite <- (Sort_ascending_unchanged lt l Hs) at 2. reflexivity.
Qed.

Lemma Sort_leaves_ascending_list_witness : Sort Z.ltb [1; 3; 3; 7] = [1; 3; 3; 7].
Proof.
  apply (Sort_leaves_ascending_list Z.ltb [1; 3; 3; 7]).
  unfold ascending. repeat constructor.
Defined.

(** X10. Sorting twice is sorting once: for a list of fewer than [2^31]
    records under a strict weak order, [Sort] after [Sort] changes
    nothing. *)
Theorem Sort_twice_is_Sort {A : Type} (lt : A -> A -> bool) (l : list A) :
  StrictWeakOrder lt -> GetNumEntries l < 2147483648 ->
  Sort lt (Sort lt l) = Sort lt l.
Proof.
  intros SWO HN. apply Sort_ascending_unchanged.
  apply (Sort_done lt SWO l HN).
Qed.

Lemma Sort_twice_is_Sort_witness :
  Sort Z.ltb (Sort Z.ltb [5; 1; 4; 2]) = Sort Z.ltb [5; 1; 4; 2].
Proof.
  exact (Sort_twice_is_Sort Z.ltb [5; 1; 4; 2] Zltb_StrictWeakOrder eq_refl).
Defined.

(** X11. After [Sort], [Exists] decides whether the list holds a record
    equal to [x]: for any list of fewer than [2^31] records under a
    strict weak order, [Exists(x)] on the sorted list returns an index
    exactly when some record of the list is equal to [x]. *)
Theorem Exists_after_Sort_decides {A : Type} (lt : A -> A -> bool)
    (l : list A) (x : A) (fuel : nat) :
  StrictWeakOrder lt -> GetNumEntries l < 2147483648 -> (33 <= fuel)%nat ->
  exists i,
    Exists lt fuel (Sort lt l) x = Some (i, [])
    /\ (i <> -1 <-> holds_equal lt l x).
Proof.
  intros SWO HN Hf.
  destruct (Sort_done lt SWO l HN) as (Hp & Hasc & _).
  assert (HN' : GetNumEntries (Sort lt l) < 2147483648)
    by (unfold GetNumEntries in *; rewrite (Permutation_length Hp); exact HN).
  assert (Hsame : holds_equal lt (Sort lt l) x <-> holds_equal lt l x).
  { unfold holds_equal. split; intros (r & Hr & He); exists r; (split; [|exact He]).
    - now apply (Permutation_in r Hp).
    - now apply (Permutation_in r (Permutation_sym Hp)). }
  enough (exists i, Exists lt fuel (Sort lt l) x = Some (i, [])
                    /\ (i <> -1 <-> holds_equal lt (Sort lt l) x)) as (i & Hi & Hiff).
  { exists i. split; [exact Hi|]. now rewrite Hiff. }
  clear Hsame.
  destruct (FindFirst_sorted_cases lt SWO (Sort lt l) x fuel HN' Hf Hasc)
    as (r & E & Hr & Hchar & Hcases).
  assert (Hnone : (forall a, In a (Sort lt l) -> equiv lt a x = false) ->
                  ~ holds_equal lt (Sort lt l) x).
  { intros H (a & Ha & He). rewrite (H a Ha) in He. discriminate. }
  destruct (Exists_after_FindFirst lt (Sort lt l) x fuel r HN' Hr E)
    as [[HrN ->]|(ri & Hlt & Hri & ->)].
  - exists (-1). split; [reflexivity|].
    destruct Hcases as [(ri & _ & _ & _ & Hlt)|(_ & Hn & _)]; [lia|].
    split; [intros C; now contradiction C|intros C; now apply Hnone in C].
  - destruct Hcases as [(ri' & Hri' & Hx & Heq & _)|(_ & Hn & Hx)].
    + assert (ri' = ri) as -> by congruence. rewrite Hx.
      exists r. split; [reflexivity|]. split; [|lia].
      intros _. exists ri. split; [|exact Heq].
      apply list_elem_of_In. eapply list_elem_of_lookup_2. exact Hri.
    + rewrite (Hx ri Hri). exists (-1). split; [reflexivity|].
      split; [intros C; now contradiction C|intros C; now apply Hnone in C].
Qed.

Lemma Exists_after_Sort_decides_witness :
  exists i,
    Exists Z.ltb 33 (Sort Z.ltb [5; 1; 4; 2]) 5 = Some (i, [])
    /\ (i <> -1 <-> holds_equal Z.ltb [5; 1; 4; 2] 5).
Proof.
  exact (Exists_after_Sort_decides Z.ltb [5; 1; 4; 2] 5 33 Zltb_StrictWeakOrder
           eq_refl (le_n 33)).
Defined.

(** ** The order of the record types of disasm.h *)

Lemma key_lt_StrictWeakOrder : StrictWeakOrder key_lt.
Proof.
  unfold key_lt. split.
  - intros [s o]. simpl. rewrite !Z.ltb_irrefl, andb_false_r. reflexivity.
  - intros [s1 o1] [s2 o2] [s3 o3]. simpl.
    rewrite !orb_true_iff, !andb_true_iff, !Z.ltb_lt, !Z.eqb_eq. lia.
  - intros [s1 o1] [s2 o2] [s3 o3]. simpl.
    rewrite !orb_true_iff, !andb_true_iff, !Z.ltb_lt, !Z.eqb_eq. lia.
Qed.

Lemma key_lt_equiv (a b : Z * Z) : equiv key_lt a b = true <-> a = b.
Proof.
  destruct a as [s1 o1], b as [s2 o2]. unfold equiv, key_lt. simpl.
  rewrite andb_true_iff, !negb_true_iff, !orb_false_iff, !andb_false_iff,
    !Z.ltb_ge, !Z.eqb_neq.
  split; [intros H; f_equal; lia|intros H; injection H as -> ->; lia].
Qed.

(** An [operator <] that compares keys by [key_lt] is a strict weak
    order, under which the records with equal keys are equal. *)
Lemma keyed_StrictWeakOrder {A : Type} (key : A -> Z * Z) (lt : A -> A -> bool) :
  (forall a b, lt a b = key_lt (key a) (key b)) ->
  StrictWeakOrder lt /\ forall a b, equiv lt a b = true <-> key a = key b.
Proof.
  intros H. split; [split|].
  - intros x. rewrite H. apply (lt_irrefl key_lt key_lt_StrictWeakOrder).
  - intros x y z. rewrite !H. apply (lt_trans key_lt key_lt_StrictWeakOrder).
  - intros x y z. rewrite !H. apply (lt_negtrans key_lt key_lt_StrictWeakOrder).
  - intros a b. unfold equiv. rewrite !H. apply key_lt_equiv.
Qed.

(** X12. The three [operator <] of disasm.h are strict weak orders, as
    [Sort], [FindFirst], [PushSort] and [PushUnique] need, and two
    records are equal under them exactly when they have the same
    section and the same offset (or start). *)
Theorem operator_lt_strict_weak_orders :
  (StrictWeakOrder SASymbol.lt
   /\ forall a b, equiv SASymbol.lt a b = true <-> SASymbol.key a = SASymbol.key b)
  /\ (StrictWeakOrder SARelocation.lt
      /\ forall a b, equiv SARelocation.lt a b = true
                     <-> SARelocation.key a = SARelocation.key b)
  /\ (StrictWeakOrder SFunctionRecord.lt
      /\ forall a b, equiv SFunctionRecord.lt a b = true
                     <-> SFunctionRecord.key a = SFunctionRecord.key b).
Proof.
  split; [|split].
  - apply (keyed_StrictWeakOrder SASymbol.key). reflexivity.
  - apply (keyed_StrictWeakOrder SARelocation.key). reflexivity.
  - apply (keyed_StrictWeakOrder SFunctionRecord.key). reflexivity.
Qed.

(** In an ascending list under [key_lt] the keys do not go down. *)
Lemma ascending_keys {A : Type} (key : A -> Z * Z) (lt : A -> A -> bool) (l : list A) :
  (forall a b, lt a b = key_lt (key a) (key b)) ->
  ascending lt l -> keys_ascending (key <$> l).
Proof.
  intros H Hs i j ki kj Hij Hi Hj.
  rewrite list_lookup_fmap in Hi, Hj.
  destruct (l !! i) as [a|] eqn:Ha; [|discriminate].
  destruct (l !! j) as [b|] eqn:Hb; [|discriminate].
  injection Hi as <-. injection Hj as <-.
  unfold ascending in Hs. rewrite StronglySorted_lookup in Hs.
  pose proof (Hs i j a b Hij Ha Hb) as Hab. unfold not_after in Hab.
  rewrite H in Hab. unfold key_lt in Hab.
  rewrite orb_false_iff, andb_false_iff, !Z.ltb_ge, Z.eqb_neq in Hab. lia.
Qed.

(** X13. [Sort] brings a list of fewer than [2^31] symbols into the
    order of their addresses: the sorted list holds the same symbols,
    section numbers do not go down along it and within a section the
    offsets do not go down, and the symbols at one address keep the
    order they had. *)
Theorem Sort_orders_symbols_by_address (l : list SASymbol.t) :
  GetNumEntries l < 2147483648 ->
  Permutation (Sort SASymbol.lt l) l
  /\ keys_ascending (SASymbol.key <$> Sort SASymbol.lt l)
  /\ forall s,
       List.filter (fun t => if decide (SASymbol.key s = SASymbol.key t) then true else false)
                   (Sort SASymbol.lt l)
       = List.filter (fun t => if decide (SASymbol.key s = SASymbol.key t) then true else false)
                     l.
Proof.
  intros HN.
  destruct (keyed_StrictWeakOrder SASymbol.key SASymbol.lt ltac:(reflexivity))
    as [SWO Heq].
  destruct (Sort_done SASymbol.lt SWO l HN) as (Hp & Hasc & Hc).
  split; [exact Hp|]. split.
  - now apply (ascending_keys SASymbol.key SASymbol.lt).
  - intros s.
    assert (Hf : forall l0 : list SASymbol.t,
              List.filter (fun t => if decide (SASymbol.key s = SASymbol.key t)
                                    then true else false) l0
              = class_of SASymbol.lt s l0).
    { intros l0. unfold class_of. apply List.filter_ext. intros t.
      destruct (decide (SASymbol.key s = SASymbol.key t)) as [E|E].
      - symmetry. now apply Heq.
      - destruct (equiv SASymbol.lt s t) eqn:C; [|reflexivity].
        apply Heq in C. contradiction. }
    rewrite !Hf. apply Hc.
Qed.

Lemma Sort_orders_symbols_by_address_witness :
  Permutation (Sort SASymbol.lt [symbol_at 2 0 2; symbol_at 1 4 1; SASymbol.Reset])
    [symbol_at 2 0 2; symbol_at 1 4 1; SASymbol.Reset]
  /\ keys_ascending
       (SASymbol.key <$> Sort SASymbol.lt [symbol_at 2 0 2; symbol_at 1 4 1; SASymbol.Reset])
  /\ forall s,
       List.filter (fun t => if decide (SASymbol.key s = SASymbol.key t) then true else false)
                   (Sort SASymbol.lt [symbol_at 2 0 2; symbol_at 1 4 1; SASymbol.Reset])
       = List.filter (fun t => if decide (SASymbol.key s = SASymbol.key t) then true else false)
                     [symbol_at 2 0 2; symbol_at 1 4 1; SASymbol.Reset].
Proof.
  exact (Sort_orders_symbols_by_address
           [symbol_at 2 0 2; symbol_at 1 4 1; SASymbol.Reset] eq_refl).
Defined.

(** ** Lists built by repeated [PushSort] and [PushUnique] *)

Section Building.

Context {A : Type}.
Variable sizeof_RecordType : Z.
Variable zero : A.
Variable lt : A -> A -> bool.
Hypothesis SWO : StrictWeakOrder lt.

Lemma holds_equal_app (l1 l2 : list A) (y : A) :
  holds_equal lt (l1 ++ l2) y <-> holds_equal lt l1 y \/ holds_equal lt l2 y.
Proof.
  unfold holds_equal. split.
  - intros (r & Hr & He). apply in_app_or in Hr.
    destruct Hr; [left|right]; now exists r.
  - intros [(r & Hr & He)|(r & Hr & He)]; exists r; (split; [|exact He]);
      apply in_or_app; [now left|now right].
Qed.

Lemma In_insert_middle (l : list A) (x r : A) (n : nat) :
  In r (take n l ++ x :: drop n l) <-> r = x \/ In r l.
Proof.
  rewrite <- (take_drop n l) at 3. rewrite !in_app_iff. simpl. intuition congruence.
Qed.


(** One [PushUnique] on a list in strictly ascending order. *)
Lemma PushUnique_step (l : list A) (x : A) (fuel : nat) :
  GetNumEntries l < 2147483648 ->
  (GetNumEntries l + 1) * sizeof_RecordType < 4294967296 ->
  (33 <= fuel)%nat -> strictly_ascending lt l ->
  exists l' i,
    PushUnique sizeof_RecordType zero lt fuel l x = Some (l', i, [])
    /\ strictly_ascending lt l'
    /\ (forall r, In r l' <-> (r = x /\ ~ holds_equal lt l x) \/ In r l)
    /\ holds_equal lt l' x
    /\ (length l <= length l' <= length l + 1)%nat.
Proof.
  intros HN Hsize Hf Hstrict.
  assert (Hasc : ascending lt l) by (now apply (strictly_ascending_iff lt SWO)).
  destruct (FindFirst_sorted_cases lt SWO l x fuel HN Hf Hasc)
    as (r & E & Hr & Hchar & Hcases).
  destruct (PushUnique_after_FindFirst sizeof_RecordType zero lt l x fuel r HN Hr E)
    as [(ri & Hlt & Hri & Hx & ->)|[Hcase ->]].
  - assert (Heq : holds_equal lt l x).
    { exists ri. split; [apply list_elem_of_In; eapply list_elem_of_lookup_2; exact Hri|].
      unfold equiv. rewrite Hx. destruct (lt ri x) eqn:C; [|reflexivity].
      apply (Hchar _ _ Hri) in C. lia. }
    exists l, r. split; [reflexivity|]. split; [exact Hstrict|].
    split; [|split; [exact Heq|lia]].
    intros a. split; [now right|]. intros [[_ C]|Ha]; [contradiction|exact Ha].
  - rewrite (PushSort_after_FindFirst sizeof_RecordType zero lt l x fuel r HN Hsize Hr E).
    destruct Hcases as [(ri & Hri & Hx & _ & Hlt)|(Hhi & Hnone & _)].
    { destruct Hcase as [?|(ri' & Hri' & Hx')]; [lia|]. congruence. }
    exists (take (Z.to_nat r) l ++ x :: drop (Z.to_nat r) l), r.
    split; [reflexivity|]. split; [|split; [|split]].
    + apply (insert_keeps_order lt l x (Z.to_nat r) Hstrict).
      * intros k rk Hk Hklt. apply (Hchar k rk Hk). lia.
      * intros k rk Hk Hkge. apply (Hhi k rk Hk). lia.
    + intros a. rewrite In_insert_middle. split.
      * intros [->|Ha]; [left|now right]. split; [reflexivity|].
        intros (b & Hb & He). rewrite (Hnone b Hb) in He. discriminate.
      * intros [[-> _]|Ha]; [now left|now right].
    + exists x. split; [apply In_insert_middle; now left|apply (equiv_refl lt SWO)].
    + rewrite length_app, length_take. simpl. rewrite length_drop.
      unfold GetNumEntries in *. lia.
Qed.


Lemma PushUnique_all_spec (fuel : nat) (xs : list A) :
  0 <= sizeof_RecordType -> (33 <= fuel)%nat ->
  forall l : list A,
    GetNumEntries l + Z.of_nat (length xs) < 2147483648 ->
    (GetNumEntries l + Z.of_nat (length xs)) * sizeof_RecordType < 4294967296 ->
    strictly_ascending lt l ->
    exists l',
      PushUnique_all sizeof_RecordType zero lt fuel xs l = Some l'
      /\ strictly_ascending lt l'
      /\ (forall r, In r l' -> In r (xs ++ l))
      /\ (forall r, In r l -> In r l')
      /\ (forall y, holds_equal lt l' y <-> holds_equal lt (xs ++ l) y)
      /\ (length l <= length l' <= length l + length xs)%nat.
Proof.
  intros Hs Hf. induction xs as [|x xs IH]; intros l HN Hsize Hstrict.
  - exists l. simpl. repeat split; try tauto; lia.
  - simpl length in *. simpl PushUnique_all.
    destruct (PushUnique_step l x fuel) as (l1 & i & -> & Hs1 & Hin1 & Hx1 & Hlen1);
      [unfold GetNumEntries in *; lia|unfold GetNumEntries in *; nia|exact Hf
      |exact Hstrict|].
    destruct (IH l1) as (l' & E & Hs' & Hsub & Hsup & Hset & Hlen');
      [unfold GetNumEntries in *; lia|unfold GetNumEntries in *; nia|exact Hs1|].
    exists l'. split; [exact E|]. split; [exact Hs'|].
    split; [|split; [|split; [|lia]]].
    + intros r Hr. apply Hsub in Hr. apply in_app_or in Hr.
      destruct Hr as [Hr|Hr]; [right; apply in_or_app; now left|].
      apply Hin1 in Hr. destruct Hr as [[-> _]|Hr]; [now left|].
      right. apply in_or_app. now right.
    + intros r Hr. apply Hsup, Hin1. now right.
    + intros y. rewrite Hset.
      change ((x :: xs) ++ l) with ([x] ++ (xs ++ l)).
      rewrite !holds_equal_app.
      assert (H1 : holds_equal lt l1 y <-> holds_equal lt [x] y \/ holds_equal lt l y).
      { split.
        - intros (r & Hr & He). apply Hin1 in Hr.
          destruct Hr as [[-> _]|Hr].
          + left. exists x. split; [now left|exact He].
          + right. exists r. now split.
        - intros [(r & [<-|[]] & He)|(r & Hr & He)].
          + destruct Hx1 as (r' & Hr' & He'). exists r'. split; [exact Hr'|].
            now apply (equiv_trans lt SWO r' x y).
          + exists r. split; [apply Hin1; now right|exact He]. }
      rewrite H1. tauto.
Qed.

End Building.



Example PushSort_all_5141 :
  PushSort_all 4 0 Z.ltb 33 [5; 1; 4; 1] [] = Some ([1; 1; 4; 5], []).
Proof. vm_compute. reflexivity. Qed.

(** X15. A list built by [PushUnique] is a sorted set: pushing the
    records [xs] one after the other into an ascending list without
    equal records, with room for all of them, gives without error a
    list that is again ascending and without equal records, keeps the
    old records, holds no record that was not given, and holds a
    record equal to [y] exactly when the old list or [xs] did. *)
Theorem PushUnique_all_builds_set {A : Type} (sizeof_RecordType : Z) (zero : A)
    (lt : A -> A -> bool) (fuel : nat) (xs l : list A) :
  StrictWeakOrder lt -> 0 <= sizeof_RecordType -> (33 <= fuel)%nat ->
  GetNumEntries l + Z.of_nat (length xs) < 2147483648 ->
  (GetNumEntries l + Z.of_nat (length xs)) * sizeof_RecordType < 4294967296 ->
  ascending lt l -> no_two_equal lt l ->
  exists l',
    PushUnique_all sizeof_RecordType zero lt fuel xs l = Some l'
    /\ ascending lt l' /\ no_two_equal lt l'
    /\ (forall r, In r l' -> In r (xs ++ l))
    /\ (forall r, In r l -> In r l')
    /\ (forall y, holds_equal lt l' y <-> holds_equal lt (xs ++ l) y)
    /\ (length l <= length l' <= length l + length xs)%nat.
Proof.
  intros SWO Hs Hf HN Hsize Hasc Huniq.
  assert (Hstrict : strictly_ascending lt l)
    by (apply (strictly_ascending_iff lt SWO); now split).
  destruct (PushUnique_all_spec sizeof_RecordType zero lt SWO fuel xs Hs Hf l HN Hsize
              Hstrict) as (l' & E & Hs' & Hrest).
  apply (strictly_ascending_iff lt SWO) in Hs'. destruct Hs' as [Ha' Hu'].
  exists l'. split; [exact E|]. split; [exact Ha'|]. split; [exact Hu'|exact Hrest].
Qed.

Lemma PushUnique_all_builds_set_witness :
  exists l',
    PushUnique_all 4 0 Z.ltb 33 [5; 1; 4; 1] [] = Some l'
    /\ ascending Z.ltb l' /\ no_two_equal Z.ltb l'
    /\ (forall r, In r l' -> In r ([5; 1; 4; 1] ++ []))
    /\ (forall r, In r [] -> In r l')
    /\ (forall y, holds_equal Z.ltb l' y <-> holds_equal Z.ltb ([5; 1; 4; 1] ++ []) y)
    /\ (length (@nil Z) <= length l' <= length (@nil Z) + length [5; 1; 4; 1])%nat.
Proof.
  refine (PushUnique_all_builds_set 4 0 Z.ltb 33 [5; 1; 4; 1] [] Zltb_StrictWeakOrder
            ltac:(lia) (le_n 33) eq_refl eq_refl (SSorted_nil _) _).
  intros i j ri rj Hi. discriminate Hi.
Defined.

Example PushUnique_all_5141 : PushUnique_all 4 0 Z.ltb 33 [5; 1; 4; 1] [] = Some [1; 4; 5].
Proof. vm_compute. reflexivity. Qed.

(** ** Finding and removing a record *)

Section FindRemove.

Context {A : Type}.
Variable lt : A -> A -> bool.
Hypothesis SWO : StrictWeakOrder lt.

(** [Exists] on an ascending list returns an index exactly when the
    list holds a record equal to [x], and the record at that index is
    such a record. *)
Lemma Exists_sorted_iff (l : list A) (x : A) (fuel : nat) :
  GetNumEntries l < 2147483648 -> (33 <= fuel)%nat -> ascending lt l ->
  exists i,
    Exists lt fuel l x = Some (i, [])
    /\ (i <> -1 <-> holds_equal lt l x)
    /\ (i <> -1 -> 0 <= i < GetNumEntries l
                   /\ exists ri, l !! Z.to_nat i = Some ri /\ equiv lt ri x = true).
Proof.
  intros HN Hf Hasc.
  destruct (FindFirst_sorted_cases lt SWO l x fuel HN Hf Hasc)
    as (r & E & Hr & Hchar & Hcases).
  assert (Hnone : (forall a, In a l -> equiv lt a x = false) -> ~ holds_equal lt l x).
  { intros H (a & Ha & He). rewrite (H a Ha) in He. discriminate. }
  destruct (Exists_after_FindFirst lt l x fuel r HN Hr E)
    as [[HrN ->]|(ri & Hlt & Hri & ->)].
  - exists (-1). split; [reflexivity|].
    destruct Hcases as [(ri & _ & _ & _ & Hlt)|(_ & Hn & _)]; [lia|].
    split; [|intros C; now contradiction C].
    split; [intros C; now contradiction C|intros C; now apply Hnone in C].
  - destruct Hcases as [(ri' & Hri' & Hx & Heq & _)|(_ & Hn & Hx)].
    + assert (ri' = ri) as -> by congruence. rewrite Hx.
      exists r. split; [reflexivity|]. split; [split; [|lia]|].
      * intros _. exists ri. split; [|exact Heq].
        apply list_elem_of_In. eapply list_elem_of_lookup_2. exact Hri.
      * intros _. split; [lia|]. now exists ri.
    + rewrite (Hx ri Hri). exists (-1). split; [reflexivity|].
      split; [|intros C; now contradiction C].
      split; [intros C; now contradiction C|intros C; now apply Hnone in C].
Qed.

End FindRemove.

(** X22. A record found and removed is gone: in an ascending list
    without equal records that fits its buffer, when [Exists(x)]
    returns an index, [Remove] at that index leaves a list with one
    record less in which [Exists(x)] returns -1. *)
Theorem Remove_found_record_is_gone {A : Type} (sizeof_RecordType : Z) (zero : A)
    (lt : A -> A -> bool) (l : list A) (x : A) (fuel : nat) (i : Z) :
  StrictWeakOrder lt -> 0 < sizeof_RecordType ->
  GetNumEntries l < 2147483648 ->
  GetNumEntries l * sizeof_RecordType < 4294967296 ->
  ascending lt l -> no_two_equal lt l -> (33 <= fuel)%nat ->
  Exists lt fuel l x = Some (i, []) -> i <> -1 ->
  exists l',
    Remove sizeof_RecordType zero i l = Some l'
    /\ GetNumEntries l' = GetNumEntries l - 1
    /\ Exists lt fuel l' x = Some (-1, []).
Proof.
  intros SWO Hs HN Hsize Hasc Huniq Hf HE Hi.
  destruct (Exists_sorted_iff lt SWO l x fuel HN Hf Hasc) as (i0 & E0 & _ & Hfound).
  assert (i0 = i) as -> by congruence.
  destruct (Hfound Hi) as (Hrange & ri & Hri & Heq).
  rewrite (Remove_spec sizeof_RecordType zero l i Hs Hsize ltac:(lia)).
  destruct (Z.ltb_spec i (GetNumEntries l)) as [_|?]; [|lia].
  set (l' := delete (Z.to_nat i) l).
  assert (Hlen : GetNumEntries l' = GetNumEntries l - 1).
  { subst l'. unfold GetNumEntries in *. rewrite length_delete; [lia|].
    apply lookup_lt_is_Some_2. lia. }
  exists l'. split; [reflexivity|]. split; [exact Hlen|].
  assert (Hasc' : ascending lt l') by (apply StronglySorted_delete; exact Hasc).
  destruct (Exists_sorted_iff lt SWO l' x fuel ltac:(lia) Hf Hasc')
    as (i' & E' & Hiff & _).
  destruct (Z.eq_dec i' (-1)) as [->|Hne]; [exact E'|].
  apply Hiff in Hne. destruct Hne as (r & Hr & Hrx).
  apply list_elem_of_In, list_elem_of_lookup in Hr. destruct Hr as [k Hk].
  subst l'. rewrite list_lookup_delete in Hk.
  assert (Hrri : equiv lt r ri = true).
  { apply (equiv_trans lt SWO r x ri Hrx). now rewrite equiv_sym. }
  pose proof (Huniq _ _ r ri Hk Hri Hrri) as Ek.
  destruct (decide (k < Z.to_nat i)%nat); lia.
Qed.

Lemma Remove_found_record_is_gone_witness :
  exists l',
    Remove 4 0 2 [1; 3; 5; 7] = Some l'
    /\ GetNumEntries l' = GetNumEntries [1; 3; 5; 7] - 1
    /\ Exists Z.ltb 33 l' 5 = Some (-1, []).
Proof.
  refine (Remove_found_record_is_gone 4 0 Z.ltb [1; 3; 5; 7] 5 33 2 Zltb_StrictWeakOrder
            eq_refl eq_refl eq_refl
            (proj1 (proj1 (strictly_ascending_iff Z.ltb Zltb_StrictWeakOrder [1; 3; 5; 7])
                      list_1357_strict))
            (proj2 (proj1 (strictly_ascending_iff Z.ltb Zltb_StrictWeakOrder [1; 3; 5; 7])
                      list_1357_strict))
            (le_n 33) eq_refl _).
  discriminate.
Defined.

(** ** Writing through [operator[]] *)

(** X16. A write [list[i] = x] through [CSList::operator[]] on a list
    with at least one entry never changes the number of entries. With
    [i] in range it submits no error, a read at [i] then returns [x],
    and all other records are as before. With [i] out of range it
    submits the index error and overwrites the record at index 0 with
    [x], leaving the others as they were. *)
Theorem operator_index_write_then_read {A : Type} (l : list A) (i : Z) (x : A) :
  l <> [] -> 0 <= i ->
  fst (store l i x) = (if i <? GetNumEntries l then [] else [ERR_INDEX_OUT_OF_RANGE])
  /\ GetNumEntries (snd (store l i x)) = GetNumEntries l
  /\ index (snd (store l i x)) (if i <? GetNumEntries l then i else 0) = ([], Some x)
  /\ forall j, 0 <= j < GetNumEntries l -> j <> (if i <? GetNumEntries l then i else 0) ->
       index (snd (store l i x)) j = index l j.
Proof.
  intros Hne Hi.
  assert (Hpos : 0 < GetNumEntries l).
  { unfold GetNumEntries. destruct l; [contradiction|simpl; lia]. }
  assert (Hrd : forall (n : nat) (j : Z), 0 <= j < GetNumEntries l ->
            index (<[n := x]> l) j = ([], <[n := x]> l !! Z.to_nat j)).
  { intros n j Hj. unfold index, GetNumEntries in *. rewrite length_insert.
    destruct (Z.geb_spec j (Z.of_nat (length l))); [lia|reflexivity]. }
  assert (Hrd0 : forall j : Z, 0 <= j < GetNumEntries l -> index l j = ([], l !! Z.to_nat j)).
  { intros j Hj. unfold index, GetNumEntries in *.
    destruct (Z.geb_spec j (Z.of_nat (length l))); [lia|reflexivity]. }
  unfold store.
  destruct (Z.geb_spec i (GetNumEntries l)) as [Hge|Hlt];
    destruct (Z.ltb_spec i (GetNumEntries l)) as [Hlt'|Hge']; try lia; simpl fst; simpl snd.
  - split; [reflexivity|]. split; [unfold GetNumEntries; now rewrite length_insert|].
    split.
    + rewrite Hrd by lia. f_equal. apply list_lookup_insert_eq.
      unfold GetNumEntries in *. simpl. lia.
    + intros j Hj Hne0. rewrite Hrd, Hrd0 by lia. f_equal.
      apply list_lookup_insert_ne. lia.
  - split; [reflexivity|]. split; [unfold GetNumEntries; now rewrite length_insert|].
    split.
    + rewrite Hrd by lia. f_equal. apply list_lookup_insert_eq.
      unfold GetNumEntries in *. lia.
    + intros j Hj Hne0. rewrite Hrd, Hrd0 by lia. f_equal.
      apply list_lookup_insert_ne. lia.
Qed.

Lemma operator_index_write_then_read_witness :
  fst (store [1; 3; 5; 7] 9 8)
  = (if 9 <? GetNumEntries [1; 3; 5; 7] then [] else [ERR_INDEX_OUT_OF_RANGE])
  /\ GetNumEntries (snd (store [1; 3; 5; 7] 9 8)) = GetNumEntries [1; 3; 5; 7]
  /\ index (snd (store [1; 3; 5; 7] 9 8)) (if 9 <? GetNumEntries [1; 3; 5; 7] then 9 else 0)
     = ([], Some 8)
  /\ forall j, 0 <= j < GetNumEntries [1; 3; 5; 7] ->
       j <> (if 9 <? GetNumEntries [1; 3; 5; 7] then 9 else 0) ->
       index (snd (store [1; 3; 5; 7] 9 8)) j = index [1; 3; 5; 7] j.
Proof.
  apply (operator_index_write_then_read [1; 3; 5; 7] 9 8); [discriminate|lia].
Defined.

Example store_out_of_range : store [1; 3; 5; 7] 9 8 = ([9003], [8; 3; 5; 7]).
Proof. reflexivity. Qed.

(** ** [class CArrayBuf] *)



(** ** The helpers of maindef.h *)

(** X18. [HighDWord] gives the upper half of a 64-bit number: the
    result fits 32 bits, together with the lower 32 bits it makes up
    the number, and it is 0 exactly for the numbers below [2^32]. *)
Theorem HighDWord_upper_half (x : Z) :
  0 <= x < 18446744073709551616 ->
  0 <= MainDef.HighDWord x < 4294967296
  /\ x = MainDef.HighDWord x * 4294967296 + to_uint32 x
  /\ (MainDef.HighDWord x = 0 <-> x < 4294967296).
Proof.
  intros Hx. unfold MainDef.HighDWord, to_uint32.
  rewrite Z.shiftr_div_pow2 by lia. change (2 ^ 32) with 4294967296.
  assert (Hq : 0 <= x / 4294967296 < 4294967296).
  { split; [apply Z.div_pos; lia|apply Z.div_lt_upper_bound; lia]. }
  rewrite (Z.mod_small (x / 4294967296)) by exact Hq.
  pose proof (Z.div_mod x 4294967296 ltac:(lia)) as D.
  pose proof (Z.mod_pos_bound x 4294967296 ltac:(lia)) as B.
  split; [exact Hq|]. split; [lia|]. split; intros H; [lia|].
  apply Z.div_small. lia.
Qed.

Lemma HighDWord_upper_half_witness :
  0 <= MainDef.HighDWord 4294967301 < 4294967296
  /\ 4294967301 = MainDef.HighDWord 4294967301 * 4294967296 + to_uint32 4294967301
  /\ (MainDef.HighDWord 4294967301 = 0 <-> 4294967301 < 4294967296).
Proof.
  apply (HighDWord_upper_half 4294967301). lia.
Defined.

Section Lookup.

Import MainDef.

Lemma LookupText_loop_found (x : Z) :
  forall (p : list SIntTxt) (n k : nat) e,
    p !! k = Some e -> (k < n)%nat -> a e = x ->
    (forall (j : nat) e', (j < k)%nat -> p !! j = Some e' -> a e' <> x) ->
    LookupText_loop p n x = Some (Some (b e)).
Proof.
  induction p as [|e0 p IH]; intros n k e Hk Hn Ha Hfirst; [discriminate|].
  destruct n as [|n]; [lia|]. simpl.
  destruct k as [|k]; simpl in Hk.
  - injection Hk as ->. rewrite Ha, Z.eqb_refl. reflexivity.
  - destruct (Z.eqb_spec (a e0) x) as [E|_].
    + now destruct (Hfirst 0%nat e0 ltac:(lia) eq_refl).
    + apply (IH n k e Hk ltac:(lia) Ha).
      intros j e' Hj He'. apply (Hfirst (S j) e' ltac:(lia) He').
Qed.

Lemma LookupText_loop_none (x : Z) :
  forall (n : nat) (p : list SIntTxt),
    (n <= length p)%nat ->
    (forall (k : nat) e, p !! k = Some e -> (k < n)%nat -> a e <> x) ->
    LookupText_loop p n x = Some None.
Proof.
  induction n as [|n IH]; intros p Hn Hall; [reflexivity|].
  destruct p as [|e0 p]; [simpl in Hn; lia|]. simpl.
  destruct (Z.eqb_spec (a e0) x) as [E|_].
  - now destruct (Hall 0%nat e0 eq_refl ltac:(lia)).
  - apply IH; [simpl in Hn; lia|].
    intros k e Hk Hlt. apply (Hall (S k) e Hk). lia.
Qed.

Lemma hex_digit_value_digit (d : Z) :
  0 <= d < 16 -> hex_digit_value (hex_digit d) = Some d.
Proof.
  intros Hd. replace d with (Z.of_nat (Z.to_nat d)) by lia.
  assert (Hn : (Z.to_nat d < 16)%nat) by lia.
  revert Hn. generalize (Z.to_nat d). clear Hd d. intros n Hn.
  do 16 (destruct n as [|n]; [reflexivity|]). lia.
Qed.

(** The digits written for [x] are read back as [x]. *)
Lemma hex_value_digits :
  forall (count : nat) (x : Z) (acc : string),
    0 <= x < 16 ^ Z.of_nat count ->
    hex_value 0 (hex_digits count x acc) = hex_value x acc.
Proof.
  induction count as [|count IH]; intros x acc Hx.
  - simpl in *. now replace x with 0 by lia.
  - rewrite Nat2Z.inj_succ, Z.pow_succ_r in Hx by lia.
    pose proof (Z.div_mod x 16 ltac:(lia)) as D.
    pose proof (Z.mod_pos_bound x 16 ltac:(lia)) as B.
    cbn [hex_digits]. cbv zeta.
    destruct (Z.eqb_spec (x / 16) 0) as [E|Hne].
    + cbn [hex_value]. rewrite hex_digit_value_digit by lia.
      f_equal. lia.
    + rewrite IH.
      * cbn [hex_value]. rewrite hex_digit_value_digit by lia. f_equal. lia.
      * split; [apply Z.div_pos; lia|apply Z.div_lt_upper_bound; lia].
Qed.

Lemma hex_digits_length :
  forall (count : nat) (x : Z) (acc : string),
    (String.length (hex_digits count x acc) <= count + String.length acc)%nat.
Proof.
  induction count as [|count IH]; intros x acc; [simpl; lia|].
  cbn [hex_digits]. cbv zeta. destruct (x / 16 =? 0).
  - simpl. lia.
  - etransitivity; [apply IH|]. simpl. lia.
Qed.

Lemma string_length_append (s1 s2 : string) :
  String.length (s1 +:+ s2) = (String.length s1 + String.length s2)%nat.
Proof. induction s1 as [|c s1 IH]; simpl; [reflexivity|now rewrite IH]. Qed.


Lemma format_X_value (x : Z) : 0 <= x < 4294967296 -> hex_value 0 (format_X x) = Some x.
Proof.
  intros Hx. unfold format_X. rewrite hex_value_digits; [reflexivity|].
  change (16 ^ Z.of_nat 8) with 4294967296. exact Hx.
Qed.


Lemma LookupText_not_found (utext : string) (p : list SIntTxt) (n x : Z) :
  0 <= n <= Z.of_nat (length p) ->
  (forall (k : nat) e, p !! k = Some e -> Z.of_nat k < n -> a e <> x) ->
  LookupText utext p n x = Some (StaticText, unknown_text x).
Proof.
  intros Hn Hall. unfold LookupText.
  rewrite LookupText_loop_none; [reflexivity|lia|].
  intros k e Hk Hlt. apply (Hall k e Hk). lia.
Qed.

End Lookup.

(** X19. [LookupText] returns the text of the first entry of the table
    whose number is [x], and leaves its static buffer alone. When none
    of the [n] entries has the number, it returns its static buffer
    with the text "unknown(0x", the number in upper-case hexadecimal
    digits that read back as [x], and ")"; with its end mark the text
    takes at most 20 of the 32 bytes of the buffer. *)
Theorem LookupText_first_match_or_unknown (utext : string) (p : list MainDef.SIntTxt)
    (n x : Z) :
  0 <= n <= Z.of_nat (length p) -> 0 <= x < 4294967296 ->
  (forall (k : nat) e,
      p !! k = Some e -> Z.of_nat k < n -> MainDef.a e = x ->
      (forall (j : nat) e', (j < k)%nat -> p !! j = Some e' -> MainDef.a e' <> x) ->
      MainDef.LookupText utext p n x = Some (MainDef.TableText (MainDef.b e), utext))
  /\ ((forall (k : nat) e, p !! k = Some e -> Z.of_nat k < n -> MainDef.a e <> x) ->
      MainDef.LookupText utext p n x = Some (MainDef.StaticText, MainDef.unknown_text x)
      /\ Z.of_nat (String.length (MainDef.unknown_text x)) + 1 <= 20
      /\ 20 <= MainDef.UTEXT_SIZE
      /\ exists digits,
           MainDef.unknown_text x = "unknown(0x" +:+ digits +:+ ")"
           /\ hex_value 0 digits = Some x).
Proof.
  intros Hn Hx. split.
  - intros k e Hk Hlt Ha Hfirst. unfold MainDef.LookupText.
    rewrite (LookupText_loop_found x p (Z.to_nat n) k e Hk ltac:(lia) Ha Hfirst).
    reflexivity.
  - intros Hall. split; [now apply LookupText_not_found|]. split; [|split].
    + unfold MainDef.unknown_text. rewrite !string_length_append.
      pose proof (hex_digits_length 8 x EmptyString) as L.
      unfold MainDef.format_X. simpl String.length in *. lia.
    + unfold MainDef.UTEXT_SIZE. lia.
    + exists (MainDef.format_X x). split; [reflexivity|now apply format_X_value].
Qed.

Lemma LookupText_first_match_or_unknown_witness :
  (forall (k : nat) e,
      [MainDef.Build_SIntTxt 1 "COFF"; MainDef.Build_SIntTxt 3 "ELF"] !! k = Some e ->
      Z.of_nat k < 2 -> MainDef.a e = 255 ->
      (forall (j : nat) e', (j < k)%nat ->
         [MainDef.Build_SIntTxt 1 "COFF"; MainDef.Build_SIntTxt 3 "ELF"] !! j = Some e' ->
         MainDef.a e' <> 255) ->
      MainDef.LookupText ""
        [MainDef.Build_SIntTxt 1 "COFF"; MainDef.Build_SIntTxt 3 "ELF"] 2 255
      = Some (MainDef.TableText (MainDef.b e), ""))
  /\ ((forall (k : nat) e,
         [MainDef.Build_SIntTxt 1 "COFF"; MainDef.Build_SIntTxt 3 "ELF"] !! k = Some e ->
         Z.of_nat k < 2 -> MainDef.a e <> 255) ->
      MainDef.LookupText ""
        [MainDef.Build_SIntTxt 1 "COFF"; MainDef.Build_SIntTxt 3 "ELF"] 2 255
      = Some (MainDef.StaticText, MainDef.unknown_text 255)
      /\ Z.of_nat (String.length (MainDef.unknown_text 255)) + 1 <= 20
      /\ 20 <= MainDef.UTEXT_SIZE
      /\ exists digits,
           MainDef.unknown_text 255 = "unknown(0x" +:+ digits +:+ ")"
           /\ hex_value 0 digits = Some 255).
Proof.
  apply (LookupText_first_match_or_unknown ""
           [MainDef.Build_SIntTxt 1 "COFF"; MainDef.Build_SIntTxt 3 "ELF"] 2 255);
    simpl; lia.
Defined.

Example LookupText_found :
  MainDef.LookupText "" [MainDef.Build_SIntTxt 1 "COFF"; MainDef.Build_SIntTxt 3 "ELF"] 2 3
  = Some (MainDef.TableText "ELF", "").
Proof. reflexivity. Qed.

Example LookupText_unknown :
  MainDef.LookupText "" [MainDef.Build_SIntTxt 1 "COFF"; MainDef.Build_SIntTxt 3 "ELF"] 2 255
  = Some (MainDef.StaticText, "unknown(0xFF)").
Proof. reflexivity. Qed.



(** ** The empty list *)

(** X21. On an empty list nothing is found and nothing is removed, and
    the first record pushed becomes the whole list: [FindFirst]
    returns 0 and [Exists] returns -1 without reading a record, [Sort]
    and [Remove] leave the list empty, and [PushSort] and [PushUnique]
    give the list of the one record at index 0; none of them submits
    an error. A read through [operator[]], for any index, submits the
    index error and finds no record. *)
Theorem empty_list_operations {A : Type} (sizeof_RecordType : Z) (zero : A)
    (lt : A -> A -> bool) (x : A) (fuel : nat) (i : Z) :
  sizeof_RecordType < 4294967296 -> (0 < fuel)%nat -> 0 <= i ->
  FindFirst lt fuel [] x = Some (0, [])
  /\ Exists lt fuel [] x = Some (-1, [])
  /\ Sort lt [] = []
  /\ Remove sizeof_RecordType zero i [] = Some []
  /\ PushSort sizeof_RecordType zero lt fuel [] x = Some ([x], 0, [])
  /\ PushUnique sizeof_RecordType zero lt fuel [] x = Some ([x], 0, [])
  /\ index (@nil A) i = ([ERR_INDEX_OUT_OF_RANGE], None).
Proof.
  intros Hs Hf Hi.
  destruct fuel as [|fuel]; [lia|].
  assert (Hins : insert_at sizeof_RecordType zero 0 x [] = Some ([], [x])).
  { unfold insert_at, SetNum.
    change (to_uint32 (GetNumEntries (@nil A) + 1)) with 1.
    destruct (Z.ltb_spec (1 * sizeof_RecordType) 4294967296); [reflexivity|lia]. }
  split; [reflexivity|]. split; [reflexivity|]. split; [reflexivity|].
  split; [|split; [|split]].
  - unfold Remove. change (GetNumEntries (@nil A)) with 0.
    destruct (Z.geb_spec i 0); [reflexivity|lia].
  - unfold PushSort. simpl. change (to_int32 0) with 0. now rewrite Hins.
  - unfold PushUnique. simpl. change (to_int32 0) with 0. now rewrite Hins.
  - unfold index. change (GetNumEntries (@nil A)) with 0.
    destruct (Z.geb_spec i 0); [reflexivity|lia].
Qed.

Lemma empty_list_operations_witness :
  FindFirst Z.ltb 33 [] 5 = Some (0, [])
  /\ Exists Z.ltb 33 [] 5 = Some (-1, [])
  /\ Sort Z.ltb [] = []
  /\ Remove 4 0 2 [] = Some []
  /\ PushSort 4 0 Z.ltb 33 [] 5 = Some ([5], 0, [])
  /\ PushUnique 4 0 Z.ltb 33 [] 5 = Some ([5], 0, [])
  /\ index (@nil Z) 2 = ([ERR_INDEX_OUT_OF_RANGE], None).
Proof.
  apply (empty_list_operations 4 0 Z.ltb 5 33 2); lia.
Defined.
